(** * Task-Management-Nest: credential service, access guard, task deletion
      and the upper-case pipe, embedded from the TypeScript sources.

    Conventions of the embedding:
    - an [async] method that awaits collaborators is a computation in the
      monad [Eff.M]: it takes the state of the collaborators and returns a
      result (a value, or the exception thrown) with the state it leaves;
    - a string is a sequence of code units and [String.length] counts
      them, as [.length] does in the source;
    - [null]/[undefined] where the source tests for them is [None]. *)

From Stdlib Require Import String Ascii List Bool Arith ZArith Lia.
Import ListNotations.
Local Open Scope string_scope.

(** ** Exceptions of @nestjs/common thrown by the sources *)

Module Http.

Inductive HttpException : Type :=
| ConflictException (message : string)
| UnauthorizedException (message : string)
| NotFoundException (message : string)
| BadRequestException (message : string).

Inductive Result (A : Type) : Type :=
| Ok (a : A)
| Throw (e : HttpException).

Arguments Ok {A} a.
Arguments Throw {A} e.

End Http.

(** ** State threaded through awaited calls; a throw keeps the effects
       performed before it *)

Module Eff.
Import Http.

Definition M (S A : Type) : Type := S -> Result A * S.

Definition ret {S A} (a : A) : M S A := fun s => (Ok a, s).

Definition throw {S A} (e : HttpException) : M S A := fun s => (Throw e, s).

Definition bind {S A B} (m : M S A) (k : A -> M S B) : M S B :=
  fun s =>
    match m s with
    | (Ok a, s') => k a s'
    | (Throw e, s') => (Throw e, s')
    end.

End Eff.

Declare Scope eff_scope.
Delimit Scope eff_scope with eff.
Notation "x <- m ;; k" := (Eff.bind m (fun x => k))
  (at level 61, m at next level, right associativity) : eff_scope.
Notation "m ;;; k" := (Eff.bind m (fun _ => k))
  (at level 61, right associativity) : eff_scope.

(** ** src/auth/auth.service.ts *)

Module Auth.
Import Http Eff.
Local Open Scope eff_scope.

(** users.entity.ts: a row of the users table. [id] is assigned by the
    store on the first save, so an entity built by [create] has none. *)
Record User : Type := mkUser {
  id : option string;
  username : string;
  name : string;
  email : string;
  password : string
}.

Definition set_password (u : User) (p : string) : User :=
  {| id := id u; username := username u; name := name u;
     email := email u; password := p |}.

Definition set_id (u : User) (i : string) : User :=
  {| id := Some i; username := username u; name := name u;
     email := email u; password := password u |}.

(** [{ where: { email } }] and [{ where: { username } }] *)
Inductive FindOptions : Type :=
| WhereEmail (e : string)
| WhereUsername (u : string).

Definition matches (q : FindOptions) (u : User) : bool :=
  match q with
  | WhereEmail e => email u =? e
  | WhereUsername n => username u =? n
  end.

(** Calls received by the repository, in order (what the jest mocks of
    auth.service.spec.ts count). *)
Inductive RepoCall : Type :=
| CallFindOne (q : FindOptions)
| CallCreate (u : User)
| CallSave (u : User).

Definition is_read (c : RepoCall) : bool :=
  match c with CallFindOne _ => true | _ => false end.

(** The collaborators' state: the users table, the randomness bcrypt and
    the store draw salts and identifiers from, and the calls so far. *)
Record World : Type := mkWorld {
  table : list User;
  entropy : nat;
  calls : list RepoCall
}.

Definition log (c : RepoCall) (w : World) : World :=
  {| table := table w; entropy := entropy w; calls := calls w ++ [c] |}.

Definition has_id (i : string) (u : User) : bool :=
  match id u with Some j => j =? i | None => false end.

(** UPDATE users SET ... WHERE id = i *)
Definition update_row (i : string) (u : User) (rows : list User) : list User :=
  map (fun r => if has_id i r then u else r) rows.

(** JSON Web Token payload signed at login. *)
Record JwtPayload : Type := mkPayload {
  sub : option string;
  payload_username : string
}.

Record UserView : Type := mkView {
  view_id : option string;
  view_username : string;
  view_name : string;
  view_email : string
}.

Record RegisterResponse : Type := mkRegisterResponse {
  register_message : string;
  user : UserView
}.

Record LoginResponse : Type := mkLoginResponse {
  login_message : string;
  login_name : string;
  accessToken : string
}.

Record ResetResponse : Type := mkResetResponse {
  reset_message : string
}.

(** What the constructor injects and the module imports: bcrypt (the
    digest of a password under a salt and a cost, the salt of the n-th
    random draw, the comparison of a password with a digest), the
    identifier the store generates for a new row, and JwtService.sign
    with the secret and expiry of the module's configuration. *)
Class Collaborators : Type := {
  bcrypt_digest : string -> string -> nat -> string;
  genSalt : nat -> string;
  bcrypt_compare : string -> string -> bool;
  genId : nat -> string;
  jwtService_sign : JwtPayload -> string
}.

Section Service.

Context `{Collaborators}.

Definition bcrypt_hash (data : string) (rounds : nat) : M World string :=
  fun w =>
    (Ok (bcrypt_digest (genSalt (entropy w)) data rounds),
     {| table := table w; entropy := S (entropy w); calls := calls w |}).

Definition userRepo_findOne (q : FindOptions) : M World (option User) :=
  fun w => (Ok (find (matches q) (table w)), log (CallFindOne q) w).

Definition userRepo_create (u : User) : M World User :=
  fun w => (Ok u, log (CallCreate u) w).

(** Repository.save: an entity whose id names a stored row updates it,
    any other entity is inserted, with a generated id when it has
    none. *)
Definition userRepo_save (u : User) : M World User :=
  fun w =>
    let w1 := log (CallSave u) w in
    match id u with
    | Some i =>
        if existsb (has_id i) (table w)
        then (Ok u, {| table := update_row i u (table w);
                       entropy := entropy w1; calls := calls w1 |})
        else (Ok u, {| table := table w ++ [u];
                       entropy := entropy w1; calls := calls w1 |})
    | None =>
        let u' := set_id u (genId (entropy w)) in
        (Ok u', {| table := table w ++ [u'];
                   entropy := S (entropy w); calls := calls w1 |})
    end.

(** AuthService.register *)
Definition register (email name username password : string)
  : M World RegisterResponse :=
  existedUser <- userRepo_findOne (WhereEmail email) ;;
  match existedUser with
  | Some _ => throw (ConflictException "User already exists with this email")
  | None =>
      usedUserName <- userRepo_findOne (WhereUsername username) ;;
      match usedUserName with
      | Some _ => throw (ConflictException "Username is already taken")
      | None =>
          hashed <- bcrypt_hash password 10 ;;
          user <- userRepo_create
                    {| id := None; username := username; name := name;
                       email := email; password := hashed |} ;;
          res <- userRepo_save user ;;
          ret {| register_message := "User created successfully!";
                 user := {| view_id := id res;
                            view_username := Auth.username res;
                            view_name := Auth.name res;
                            view_email := Auth.email res |} |}
      end
  end.

(** AuthService.login *)
Definition login (email password : string) : M World LoginResponse :=
  existedUser <- userRepo_findOne (WhereEmail email) ;;
  match existedUser with
  | None => throw (UnauthorizedException "User Not Found")
  | Some existedUser =>
      let isPasswordValid :=
        bcrypt_compare password (Auth.password existedUser) in
      if negb isPasswordValid
      then throw (UnauthorizedException "Invalid Password")
      else
        let payload := {| sub := id existedUser;
                          payload_username := Auth.username existedUser |} in
        let accessToken := jwtService_sign payload in
        ret {| login_message := "Login successful";
               login_name := Auth.name existedUser;
               accessToken := accessToken |}
  end.

(** [!newPassword || newPassword.length < 6]; [None] is a null or
    undefined argument. *)
Definition too_short (newPassword : option string) : bool :=
  match newPassword with
  | None => true
  | Some p => (p =? "") || Nat.ltb (String.length p) 6
  end.

(** AuthService.resetPassword *)
Definition resetPassword (email oldPassword : string)
           (newPassword : option string) : M World ResetResponse :=
  user <- userRepo_findOne (WhereEmail email) ;;
  match user with
  | None => throw (NotFoundException "No user found with this email")
  | Some user =>
      let isOldPasswordValid :=
        bcrypt_compare oldPassword (Auth.password user) in
      if negb isOldPasswordValid
      then throw (UnauthorizedException "Old password is incorrect")
      else
        match newPassword with
        | Some p =>
            if too_short newPassword
            then throw (BadRequestException
                          "New password must be at least 6 characters long")
            else
              hashed <- bcrypt_hash p 10 ;;
              let user := set_password user hashed in
              userRepo_save user ;;;
              ret {| reset_message := "Password changed successfully!" |}
        | None =>
            throw (BadRequestException
                     "New password must be at least 6 characters long")
        end
  end.

(** The row [register] persists when it starts in [w]. *)
Definition new_row (email name username password : string) (w : World) : User :=
  {| id := Some (genId (S (entropy w)));
     username := username; name := name; email := email;
     password := bcrypt_digest (genSalt (entropy w)) password 10 |}.

End Service.

(** *** What a lookup finds *)

Definition email_registered (e : string) (rows : list User) : bool :=
  existsb (matches (WhereEmail e)) rows.

Definition username_taken (n : string) (rows : list User) : bool :=
  existsb (matches (WhereUsername n)) rows.

(** Every stored row carries the id the store gave it. *)
Definition table_ok (rows : list User) : bool :=
  forallb (fun u => match id u with Some _ => true | None => false end) rows.

(** [w'] differs from [w] by lookups only: same rows, same randomness,
    and the calls added are all [findOne]. *)
Definition untouched (w w' : World) : Prop :=
  table w' = table w /\
  entropy w' = entropy w /\
  exists reads, calls w' = (calls w ++ reads)%list /\ forallb is_read reads = true.

(** The three credential operations with their arguments, and the
    exception (if any) a call ends with. *)
Inductive Operation : Type :=
| Register (email name username password : string)
| Login (email password : string)
| ResetPassword (email oldPassword : string) (newPassword : option string).

Definition failure {A} (r : Result A * World) : option HttpException * World :=
  match r with
  | (Ok _, w) => (None, w)
  | (Throw e, w) => (Some e, w)
  end.

Definition perform `{Collaborators} (op : Operation) (w : World)
  : option HttpException * World :=
  match op with
  | Register email name username password =>
      failure (register email name username password w)
  | Login email password => failure (login email password w)
  | ResetPassword email oldPassword newPassword =>
      failure (resetPassword email oldPassword newPassword w)
  end.

End Auth.

(** ** TasksService.deleteTask (tasks.service.ts) and its route *)

Module Tasks.
Import Http Eff.
Local Open Scope eff_scope.

Record Task : Type := mkTask {
  id : string;
  title : string;
  description : string;
  completed : bool
}.

(** typeorm's DeleteResult: the number of rows the statement removed. *)
Record DeleteResult : Type := mkDeleteResult { affected : nat }.

Inductive RepoCall : Type :=
| CallDelete (id : string).

Record World : Type := mkWorld {
  table : list Task;
  calls : list RepoCall
}.

Definition has_id (i : string) (t : Task) : bool := id t =? i.

(** What the promise of a call on the tasks store is rejected with: an
    exception of @nestjs/common, or typeorm's own error, which is none of
    them. *)
Inductive Rejection : Type :=
| HttpRejection (e : HttpException)
| TypeORMError (message : string).

Inductive Settled (A : Type) : Type :=
| Fulfilled (a : A)
| Rejected (r : Rejection).

Arguments Fulfilled {A} a.
Arguments Rejected {A} r.

Definition Promise (A : Type) : Type := World -> Settled A * World.

Definition resolve {A} (a : A) : Promise A := fun w => (Fulfilled a, w).

(** [await p] followed by [k]: a rejection of [p] is the rejection of the
    whole. *)
Definition await {A B} (p : Promise A) (k : A -> Promise B) : Promise B :=
  fun w =>
    match p w with
    | (Fulfilled a, w') => k a w'
    | (Rejected r, w') => (Rejected r, w')
    end.

(** Repository.delete: typeorm rejects an empty criteria (the empty
    string among them) before any statement is sent; otherwise
    DELETE FROM tasks WHERE id = i. *)
Definition tasksRepo_delete (i : string) : Promise DeleteResult :=
  fun w =>
    if i =? ""
    then (Rejected (TypeORMError
                      "Empty criteria(s) are not allowed for the delete method."),
          {| table := table w; calls := calls w ++ [CallDelete i] |})
    else (Fulfilled {| affected := List.length (filter (has_id i) (table w)) |},
          {| table := filter (fun t => negb (has_id i t)) (table w);
             calls := calls w ++ [CallDelete i] |}).

(** TasksService.deleteTask *)
Definition deleteTask (id : string) : Promise string :=
  await (tasksRepo_delete id) (fun _ =>
  resolve "Task Deleted Successfully!").

(** TasksController.deleteTask *)
Definition controller_deleteTask (id : string) : Promise string :=
  await (deleteTask id) (fun res =>
  resolve res).

End Tasks.

(** ** pipes/UpperCase.pipe.ts *)

Module Pipes.
Import Http.

(** The values a pipe can receive ([value: any]). *)
#[warnings="-register-all"] Inductive JsValue : Type :=
| JsUndefined
| JsNull
| JsBoolean (b : bool)
| JsNumber (n : Z)
| JsBigInt (n : Z)
| JsString (s : string)
| JsSymbol (description : string)
| JsFunction (name : string)
| JsObject (props : list (string * JsValue))
| JsArray (elems : list JsValue).

(** The [typeof] operator. *)
Definition typeof (v : JsValue) : string :=
  match v with
  | JsUndefined => "undefined"
  | JsNull => "object"
  | JsBoolean _ => "boolean"
  | JsNumber _ => "number"
  | JsBigInt _ => "bigint"
  | JsString _ => "string"
  | JsSymbol _ => "symbol"
  | JsFunction _ => "function"
  | JsObject _ => "object"
  | JsArray _ => "object"
  end.

(** [s === v] for a primitive string [s]: only an equal primitive
    string is strictly equal to it. *)
Definition string_strict_equals (s : string) (v : JsValue) : bool :=
  match v with
  | JsString t => s =? t
  | _ => false
  end.

Section Transform.

(** String.prototype.toUpperCase *)
Variable toUpperCase : string -> string.

(** [v.toUpperCase()], called only under a [typeof v === 'string']
    test. *)
Definition call_toUpperCase (v : JsValue) : JsValue :=
  match v with
  | JsString s => JsString (toUpperCase s)
  | _ => v
  end.

(** The body of the for-in loop, for the value under one key. *)
Definition upper_entry (v : JsValue) : JsValue :=
  if typeof v =? "string" then call_toUpperCase v else v.

(** The for-in loop: the keys of an object, the indices of an array;
    over null it visits nothing. *)
Definition for_in_upper (value : JsValue) : JsValue :=
  match value with
  | JsObject props =>
      JsObject (map (fun kv => (fst kv, upper_entry (snd kv))) props)
  | JsArray elems => JsArray (map upper_entry elems)
  | _ => value
  end.

(** UpperCasePipe.transform *)
Definition transform (value : JsValue) : Result JsValue :=
  if (typeof value =? "object")
     && negb (string_strict_equals (typeof value) JsNull)
  then Ok (for_in_upper value)
  else if typeof value =? "string"
  then Ok (call_toUpperCase value)
  else Throw (BadRequestException
                "Validation failed: value must be string or object").

End Transform.

End Pipes.

(** ** The route of a request to the tasks controller:
       auth.middleware.ts, the guard of [@UseGuards(JwtAuthGuard)], the
       interceptor of [@UseInterceptors(AuthLoggingInterceptor)], then the
       handler *)

Module Guard.
Import Http Eff.
Local Open Scope eff_scope.

(** Modelled from the spec: the identity a token asserts, the claims
    subject id and username (section 3, Token); jwt.strategy.ts, which
    decodes them, is not among the sources. *)
Record Claims : Type := mkClaims {
  sub : string;
  username : string
}.

(** Modelled from the spec: a token is a signed, time-bounded assertion
    of identity (section 3): its claims, its embedded expiry and its
    signature. *)
Record SignedToken : Type := mkSignedToken {
  claims : Claims;
  exp : nat;
  signature : string
}.

Record Request : Type := mkRequest {
  authorization : option string;
  method : string;
  url : string;
  body : string;
  user : option Claims
}.

Definition set_user (req : Request) (c : Claims) : Request :=
  {| authorization := authorization req; method := method req;
     url := url req; body := body req; user := Some c |}.

(** What the process prints and which handler runs, in order. *)
Inductive Event : Type :=
| ConsoleLog (line : string)
| TaskHandler (req : Request).

Definition is_handler (e : Event) : bool :=
  match e with TaskHandler _ => true | ConsoleLog _ => false end.

Definition console_log (line : string) : M (list Event) unit :=
  fun tr => (Ok tt, (tr ++ [ConsoleLog line])%list).

(** Modelled from the spec: the Token Issuer (section 6), with the secret
    and algorithm of the process configuration: parsing a token string and
    checking a parsed token's signature. The JwtModule registration is not
    among the sources. *)
Class TokenIssuer : Type := {
  decode : string -> option SignedToken;
  signature_verifies : SignedToken -> bool
}.

Section Route.

Context `{TokenIssuer}.

(** The clock at the time of the request. *)
Variable now : nat.
(** Whether the application module mounts AuthMiddleware on the tasks
    routes (app.module.ts is not among the sources). *)
Variable middleware_mounted : bool.
(** The controller method the route maps to. *)
Variable Response : Type.
Variable handler : Request -> Result Response.

(** AuthMiddleware.use *)
Definition AuthMiddleware_use {A} (req : Request)
           (next : M (list Event) A) : M (list Event) A :=
  let authHeader := body req in
  console_log ("[Middlware] From Body: " ++ authHeader) ;;;
  next.

(** Modelled from the spec: the bearer token of an Authorization
    header, [Authorization: Bearer <token>] (section 6); the
    extraction lives in jwt.strategy.ts, which is not among the
    sources. *)
Definition bearer_token (header : string) : option string :=
  if prefix "Bearer " header
  then Some (substring 7 (String.length header - 7) header)
  else None.

(** Modelled from the spec: the Token Issuer's
    [verify(token) -> claims or failure] (section 6): the token parses,
    its signature verifies and its expiry has not passed. *)
Definition verify (token : string) : option Claims :=
  match decode token with
  | None => None
  | Some t =>
      if signature_verifies t && Nat.ltb now (exp t)
      then Some (claims t)
      else None
  end.

(** Modelled from the spec: JwtAuthGuard (jwt-auth.guard.ts and
    jwt.strategy.ts are not among the sources), section 4.2: extract
    the bearer token, verify it, attach the decoded identity to the
    request; Unauthorized otherwise. *)
Definition JwtAuthGuard_canActivate (req : Request) : Result Request :=
  match authorization req with
  | None => Throw (UnauthorizedException "Unauthorized")
  | Some header =>
      match bearer_token header with
      | None => Throw (UnauthorizedException "Unauthorized")
      | Some token =>
          match verify token with
          | None => Throw (UnauthorizedException "Unauthorized")
          | Some c => Ok (set_user req c)
          end
      end
  end.

(** [user?.username || fallback] *)
Definition username_or (req : Request) (fallback : string) : string :=
  match user req with
  | Some c => if username c =? "" then fallback else username c
  | None => fallback
  end.

(** AuthLoggingInterceptor.intercept *)
Definition AuthLoggingInterceptor_intercept {A} (req : Request)
           (next : M (list Event) A) : M (list Event) A :=
  console_log ("[Auth Log] User: " ++ username_or req "Anonymus"
               ++ " | Method: " ++ method req
               ++ " | URL: " ++ url req) ;;;
  r <- next ;;
  console_log ("[Auth Log] Response sent for " ++ method req ++ " "
               ++ url req ++ " by " ++ username_or req "Anonymous") ;;;
  ret r.

Definition invoke_handler (req : Request) : M (list Event) Response :=
  fun tr => (handler req, (tr ++ [TaskHandler req])%list).

Definition guarded (req : Request) : M (list Event) Response :=
  match JwtAuthGuard_canActivate req with
  | Throw e => throw e
  | Ok req' => AuthLoggingInterceptor_intercept req' (invoke_handler req')
  end.

(** A request to a route of [@Controller('tasks')]: middleware, then
    guards, then interceptors, then the handler, as Nest orders them. *)
Definition tasks_route (req : Request) : M (list Event) Response :=
  if middleware_mounted
  then AuthMiddleware_use req (guarded req)
  else guarded req.

(** The ways a request can fail to carry a valid token. *)
Inductive Credential : Type :=
| Missing
| Malformed
| BadSignature
| Expired
| Valid (c : Claims).

Definition credential (req : Request) : Credential :=
  match authorization req with
  | None => Missing
  | Some header =>
      match bearer_token header with
      | None => Malformed
      | Some token =>
          match decode token with
          | None => Malformed
          | Some t =>
              if negb (signature_verifies t) then BadSignature
              else if Nat.leb (exp t) now then Expired
              else Valid (claims t)
          end
      end
  end.

Definition handler_calls (tr : list Event) : list Event :=
  filter is_handler tr.

(** The route ends the request with Unauthorized and no handler ran. *)
Definition rejected (req : Request) (tr : list Event) : Prop :=
  fst (tasks_route req tr) = Throw (UnauthorizedException "Unauthorized") /\
  handler_calls (snd (tasks_route req tr)) = handler_calls tr.

(** The handler ran once, on the request carrying identity [c], and its
    result is the route's. *)
Definition reaches_handler (req : Request) (c : Claims) (tr : list Event)
  : Prop :=
  fst (tasks_route req tr) = handler (set_user req c) /\
  handler_calls (snd (tasks_route req tr)) =
    (handler_calls tr ++ [TaskHandler (set_user req c)])%list.

End Route.

End Guard.

(** ** Stand-ins for the collaborators, as the jest mocks of the test
       files are, to run the model on concrete inputs *)

Module Mock.

Definition digest (salt data : string) (rounds : nat) : string :=
  data ++ "$" ++ salt.

Definition salt (n : nat) : string :=
  String (ascii_of_nat (97 + n mod 26)) EmptyString.

Definition compare (data encrypted : string) : bool :=
  prefix (data ++ "$") encrypted.

Definition uuid (n : nat) : string :=
  "id-" ++ String (ascii_of_nat (48 + n mod 10)) EmptyString.

Definition sign (p : Auth.JwtPayload) : string := "mockAccessToken".

Definition collaborators : Auth.Collaborators :=
  {| Auth.bcrypt_digest := digest;
     Auth.genSalt := salt;
     Auth.bcrypt_compare := compare;
     Auth.genId := uuid;
     Auth.jwtService_sign := sign |}.

Definition ayman : Guard.Claims :=
  {| Guard.sub := "1"; Guard.username := "ayman" |}.

Definition token_decode (token : string) : option Guard.SignedToken :=
  if token =? "good"
  then Some {| Guard.claims := ayman; Guard.exp := 100;
               Guard.signature := "hmac" |}
  else if token =? "forged"
  then Some {| Guard.claims := ayman; Guard.exp := 100;
               Guard.signature := "other" |}
  else None.

Definition issuer : Guard.TokenIssuer :=
  {| Guard.decode := token_decode;
     Guard.signature_verifies := fun t => Guard.signature t =? "hmac" |}.

(** The user of the spec's scenario, registered with password
    "secret1". *)
Definition alice : Auth.User :=
  {| Auth.id := Some "id-0"; Auth.username := "a1"; Auth.name := "A";
     Auth.email := "a@x.com"; Auth.password := digest "s" "secret1" 10 |}.

Definition one_user : Auth.World :=
  {| Auth.table := [alice]; Auth.entropy := 0; Auth.calls := [] |}.

Definition upper_ascii (c : ascii) : ascii :=
  let n := nat_of_ascii c in
  if Nat.leb 97 n && Nat.leb n 122 then ascii_of_nat (n - 32) else c.

Fixpoint upper (s : string) : string :=
  match s with
  | EmptyString => EmptyString
  | String c s' => String (upper_ascii c) (upper s')
  end.

End Mock.

(** ** The auth controller (auth.controller.ts) *)

Module AuthApi.
Import Http Eff Auth.
Local Open Scope eff_scope.

(** The bodies of the three POST routes, as the controller destructures
    them. *)
Record RegisterDto : Type := mkRegisterDto {
  reg_name : string;
  reg_username : string;
  reg_email : string;
  reg_password : string
}.

Record LoginDto : Type := mkLoginDto {
  cred_email : string;
  cred_password : string
}.

(** reset-password.dto.ts *)
Record ResetPasswordDto : Type := mkResetPasswordDto {
  reset_email : string;
  oldPassword : string;
  newPassword : string
}.

Section Controller.

Context `{Collaborators}.

(** AuthController.register *)
Definition controller_register (dto : RegisterDto) : M World RegisterResponse :=
  let name := reg_name dto in
  let username := reg_username dto in
  let email := reg_email dto in
  let password := reg_password dto in
  register email name username password.

(** AuthController.login *)
Definition controller_login (dto : LoginDto) : M World LoginResponse :=
  let email := cred_email dto in
  let password := cred_password dto in
  login email password.

(** AuthController.resetPassword *)
Definition controller_resetPassword (dto : ResetPasswordDto)
  : M World ResetResponse :=
  let email := reset_email dto in
  let newPassword := newPassword dto in
  let oldPassword := oldPassword dto in
  resetPassword email oldPassword (Some newPassword).

(** The keys of the users table: no two rows share an id, an email or a
    username, and every id is one the store generated before. *)
Definition unique_keys (w : World) : Prop :=
  NoDup (map id (table w)) /\
  NoDup (map Auth.email (table w)) /\
  NoDup (map Auth.username (table w)) /\
  (forall u, In u (table w) ->
     exists n, n < entropy w /\ id u = Some (genId n)).

End Controller.

End AuthApi.

(** ** The rest of TasksService (tasks.service.ts) and of the tasks
       controller. Console output is not part of [Tasks.World] and is left
       out; [Tasks.calls] records delete statements only. *)

Module TasksCrud.
Import Http Eff Tasks.
Local Open Scope eff_scope.

(** [{ title, description }], what [create] receives: an entity with
    neither id nor completion flag yet. *)
Record TaskDraft : Type := mkTaskDraft {
  draft_title : string;
  draft_description : string
}.

(** update-task.dto.ts *)
Record updateTaskDto : Type := mkUpdateTaskDto {
  dto_title : option string;
  dto_description : option string;
  dto_completed : bool
}.

(** [a ?? b] *)
Definition nullish {A} (a : option A) (b : A) : A :=
  match a with Some x => x | None => b end.

(** UPDATE tasks SET ... WHERE id = i *)
Definition update_row (i : string) (t : Task) (rows : list Task) : list Task :=
  map (fun r => if has_id i r then t else r) rows.

Definition with_table (w : World) (rows : list Task) : World :=
  {| table := rows; calls := calls w |}.

Section Service.

(** task.entity.ts is not among the sources: the id the store generates
    for a new row and the default of the completed column are taken as
    given. *)
Variable genId : list Task -> string.
Variable default_completed : bool.

Definition tasksRepo_create (title description : string) : M World TaskDraft :=
  ret {| draft_title := title; draft_description := description |}.

(** Repository.save of a new entity: INSERT; the entity comes back with
    the generated id and the column default filled in. *)
Definition tasksRepo_insert (d : TaskDraft) : M World Task :=
  fun w =>
    let t := {| id := genId (table w); title := draft_title d;
                description := draft_description d;
                completed := default_completed |} in
    (Ok t, with_table w (table w ++ [t])).

(** Repository.save of a loaded entity: UPDATE of the row with its id
    (INSERT if there is none). *)
Definition tasksRepo_save (t : Task) : M World Task :=
  fun w =>
    if existsb (has_id (id t)) (table w)
    then (Ok t, with_table w (update_row (id t) t (table w)))
    else (Ok t, with_table w (table w ++ [t])).

Definition tasksRepo_find : M World (list Task) :=
  fun w => (Ok (table w), w).

Definition tasksRepo_findOne (i : string) : M World (option Task) :=
  fun w => (Ok (find (has_id i) (table w)), w).

(** TasksService.createTask: [task] is the object [save] fills in and
    returns. *)
Definition createTask (title description : string) : M World Task :=
  task <- tasksRepo_create title description ;;
  see <- tasksRepo_insert task ;;
  ret see.

(** TasksService.getAllTasks *)
Definition getAllTasks : M World (list Task) :=
  tasksRepo_find.

(** TasksService.getTaskById *)
Definition getTaskById (id : string) : M World (option Task) :=
  tasksRepo_findOne id.

(** TasksService.updateTask *)
Definition updateTask (id : string) (title description : option string)
           (completed : option bool) : M World (option Task) :=
  task <- getTaskById id ;;
  match task with
  | None => ret None
  | Some task =>
      let task :=
        {| Tasks.id := Tasks.id task;
           Tasks.title := nullish title (Tasks.title task);
           Tasks.description := nullish description (Tasks.description task);
           Tasks.completed := nullish completed (Tasks.completed task) |} in
      saved <- tasksRepo_save task ;;
      ret (Some saved)
  end.

(** TasksController.updateTask: [Task | string] *)
Definition controller_updateTask (id : string) (dto : updateTaskDto)
  : M World (Task + string) :=
  let title := dto_title dto in
  let description := dto_description dto in
  let completed := dto_completed dto in
  task <- updateTask id title description (Some completed) ;;
  match task with
  | None => ret (inr "No task was found with this id")
  | Some task => ret (inl task)
  end.

End Service.

(** The task updateTask writes over [task]: each field is the argument
    given, or the stored one when the argument is null or undefined. *)
Definition merged (task : Task) (title description : option string)
           (completed : option bool) : Task :=
  {| id := id task;
     title := nullish title (Tasks.title task);
     description := nullish description (Tasks.description task);
     completed := nullish completed (Tasks.completed task) |}.

(** No two stored tasks share an id. *)
Definition unique_ids (w : World) : Prop := NoDup (map id (table w)).

End TasksCrud.

(** ** Stand-ins for the tasks store, after the fixtures of
       tasks.service.spec.ts *)

Module MockTasks.

Definition first_task : Tasks.Task :=
  {| Tasks.id := "123e4567"; Tasks.title := "Test Task";
     Tasks.description := "Test Description"; Tasks.completed := false |}.

Definition second_task : Tasks.Task :=
  {| Tasks.id := "223e4567"; Tasks.title := "Second Task";
     Tasks.description := "Second Description"; Tasks.completed := true |}.

Definition two_tasks : Tasks.World :=
  {| Tasks.table := [first_task; second_task]; Tasks.calls := [] |}.

(** An id generator that numbers the rows. *)
Definition next_id (rows : list Tasks.Task) : string :=
  "row-" ++ String (ascii_of_nat (48 + List.length rows mod 10)) EmptyString.

End MockTasks.

(** ** Collaborators whose generated ids are pairwise distinct *)

Module MockIds.

(** The n-th id is n marks long. *)
Fixpoint tally (n : nat) : string :=
  match n with
  | O => EmptyString
  | S n' => String "i"%char (tally n')
  end.

Definition tallying : Auth.Collaborators :=
  {| Auth.bcrypt_digest := Mock.digest;
     Auth.genSalt := Mock.salt;
     Auth.bcrypt_compare := Mock.compare;
     Auth.genId := tally;
     Auth.jwtService_sign := Mock.sign |}.

Definition empty : Auth.World :=
  {| Auth.table := []; Auth.entropy := 0; Auth.calls := [] |}.

(** The store after two registrations: each drew a salt, then an id. *)
Definition two_users : Auth.World :=
  {| Auth.table :=
       [ {| Auth.id := Some (tally 1); Auth.username := "a1";
            Auth.name := "A"; Auth.email := "a@x.com";
            Auth.password := Mock.digest (Mock.salt 0) "secret1" 10 |};
         {| Auth.id := Some (tally 3); Auth.username := "b1";
            Auth.name := "B"; Auth.email := "b@x.com";
            Auth.password := Mock.digest (Mock.salt 2) "secret2" 10 |} ];
     Auth.entropy := 4;
     Auth.calls := [] |}.

End MockIds.

(** ** Reading a property of a value ([value[key]]) *)

Module PipesProps.
Import Pipes.

(** The own property [key] of an object, undefined when absent or when
    the value has no properties. *)
Fixpoint lookup (key : string) (props : list (string * JsValue)) : JsValue :=
  match props with
  | [] => JsUndefined
  | (k, v) :: rest => if k =? key then v else lookup key rest
  end.

Definition keys (props : list (string * JsValue)) : list string :=
  map fst props.

End PipesProps.

(** * Properties of the credential service *)

Module AuthFacts.
Import Http Eff Auth.

Section Facts.

Context `{Collaborators}.

Lemma find_existsb (f : User -> bool) (rows : list User) :
  existsb f rows = match find f rows with Some _ => true | None => false end.
Proof.
  induction rows as [|r rows IH]; simpl; [reflexivity|].
  destruct (f r); simpl; [reflexivity | exact IH].
Qed.

Lemma find_fresh (q : FindOptions) (rows : list User) :
  existsb (matches q) rows = false -> find (matches q) rows = None.
Proof.
  rewrite find_existsb. destruct (find (matches q) rows); congruence.
Qed.

Lemma find_used (q : FindOptions) (rows : list User) :
  existsb (matches q) rows = true -> exists u, find (matches q) rows = Some u.
Proof.
  rewrite find_existsb. destruct (find (matches q) rows) as [u|];
    [exists u; reflexivity | discriminate].
Qed.

Lemma found_has_id (f : User -> bool) (rows : list User) (u : User) :
  table_ok rows = true -> find f rows = Some u -> exists i, id u = Some i.
Proof.
  intros Hok Hf. apply find_some in Hf. destruct Hf as [Hin _].
  unfold table_ok in Hok. rewrite forallb_forall in Hok.
  specialize (Hok u Hin). destruct (id u) as [i|]; [exists i; reflexivity|discriminate].
Qed.

(** A lookup by email after the found row was rewritten with the same
    email finds the rewritten row. *)
Lemma find_update_row (e i : string) (u u' : User) (rows : list User) :
  find (matches (WhereEmail e)) rows = Some u ->
  id u = Some i ->
  Auth.email u' = e ->
  find (matches (WhereEmail e)) (update_row i u' rows) = Some u'.
Proof.
  intros Hf Hi He. induction rows as [|r rows IH]; simpl in *; [discriminate|].
  destruct (has_id i r) eqn:Hr.
  - rewrite He, String.eqb_refl. reflexivity.
  - destruct (Auth.email r =? e) eqn:Hm.
    + injection Hf as ->. unfold has_id in Hr. rewrite Hi in Hr.
      rewrite String.eqb_refl in Hr. discriminate.
    + apply IH. exact Hf.
Qed.

Lemma snd_failure {A} (r : Result A * World) : snd (failure r) = snd r.
Proof. destruct r as [[a|e] w]; reflexivity. Qed.

Lemma failure_thrown {A} (r : Result A * World) (e : HttpException) :
  fst (failure r) = Some e -> fst r = Throw e.
Proof. destruct r as [[a|e'] w]; simpl; congruence. Qed.

Lemma untouched_refl (w : World) : untouched w w.
Proof.
  repeat split. exists []. split; [symmetry; apply app_nil_r | reflexivity].
Qed.

Lemma untouched_log (q : FindOptions) (w w' : World) :
  untouched w w' -> untouched w (log (CallFindOne q) w').
Proof.
  intros [Ht [He [reads [Hc Hr]]]]. repeat split; simpl; try assumption.
  exists (reads ++ [CallFindOne q])%list. split.
  - rewrite Hc, app_assoc. reflexivity.
  - rewrite forallb_app, Hr. reflexivity.
Qed.

(** ** The runs of the three operations, path by path *)

Lemma register_email_used email name username password w u :
  find (matches (WhereEmail email)) (table w) = Some u ->
  register email name username password w =
    (Throw (ConflictException "User already exists with this email"),
     log (CallFindOne (WhereEmail email)) w).
Proof.
  intros Hf. unfold register, bind, userRepo_findOne, throw.
  rewrite Hf. reflexivity.
Qed.

Lemma register_username_used email name username password w u :
  find (matches (WhereEmail email)) (table w) = None ->
  find (matches (WhereUsername username)) (table w) = Some u ->
  register email name username password w =
    (Throw (ConflictException "Username is already taken"),
     log (CallFindOne (WhereUsername username))
         (log (CallFindOne (WhereEmail email)) w)).
Proof.
  intros He Hu. unfold register, bind, userRepo_findOne, throw.
  rewrite He. simpl. rewrite Hu. reflexivity.
Qed.

Lemma register_fresh email name username password w :
  find (matches (WhereEmail email)) (table w) = None ->
  find (matches (WhereUsername username)) (table w) = None ->
  register email name username password w =
    (Ok {| register_message := "User created successfully!";
           user := {| view_id := Some (genId (S (entropy w)));
                      view_username := username;
                      view_name := name;
                      view_email := email |} |},
     {| table := table w ++ [new_row email name username password w];
        entropy := S (S (entropy w));
        calls := calls w ++
                 [CallFindOne (WhereEmail email);
                  CallFindOne (WhereUsername username);
                  CallCreate {| id := None; username := username;
                                name := name; email := email;
                                password := bcrypt_digest (genSalt (entropy w))
                                                          password 10 |};
                  CallSave {| id := None; username := username;
                              name := name; email := email;
                              password := bcrypt_digest (genSalt (entropy w))
                                                        password 10 |}] |}).
Proof.
  intros He Hu.
  unfold register, bind, userRepo_findOne, userRepo_create, userRepo_save,
    bcrypt_hash, ret, throw, new_row, log.
  rewrite He. simpl. rewrite Hu. simpl.
  repeat rewrite <- app_assoc. reflexivity.
Qed.

Lemma login_run email password w :
  login email password w =
    (match find (matches (WhereEmail email)) (table w) with
     | None => Throw (UnauthorizedException "User Not Found")
     | Some u =>
         if bcrypt_compare password (Auth.password u)
         then Ok {| login_message := "Login successful";
                    login_name := Auth.name u;
                    accessToken :=
                      jwtService_sign
                        {| sub := id u;
                           payload_username := Auth.username u |} |}
         else Throw (UnauthorizedException "Invalid Password")
     end,
     log (CallFindOne (WhereEmail email)) w).
Proof.
  unfold login, bind, userRepo_findOne, ret, throw.
  destruct (find (matches (WhereEmail email)) (table w)) as [u|];
    [|reflexivity].
  destruct (bcrypt_compare password (Auth.password u)); reflexivity.
Qed.

Lemma reset_no_user email oldPassword newPassword w :
  find (matches (WhereEmail email)) (table w) = None ->
  resetPassword email oldPassword newPassword w =
    (Throw (NotFoundException "No user found with this email"),
     log (CallFindOne (WhereEmail email)) w).
Proof.
  intros Hf. unfold resetPassword, bind, userRepo_findOne, throw.
  rewrite Hf. reflexivity.
Qed.

Lemma reset_wrong_old email oldPassword newPassword w u :
  find (matches (WhereEmail email)) (table w) = Some u ->
  bcrypt_compare oldPassword (Auth.password u) = false ->
  resetPassword email oldPassword newPassword w =
    (Throw (UnauthorizedException "Old password is incorrect"),
     log (CallFindOne (WhereEmail email)) w).
Proof.
  intros Hf Hc. unfold resetPassword, bind, userRepo_findOne, throw.
  rewrite Hf. simpl. rewrite Hc. reflexivity.
Qed.

Lemma reset_too_short email oldPassword newPassword w u :
  find (matches (WhereEmail email)) (table w) = Some u ->
  bcrypt_compare oldPassword (Auth.password u) = true ->
  too_short newPassword = true ->
  resetPassword email oldPassword newPassword w =
    (Throw (BadRequestException
              "New password must be at least 6 characters long"),
     log (CallFindOne (WhereEmail email)) w).
Proof.
  intros Hf Hc Hs. unfold resetPassword, bind, userRepo_findOne, throw.
  rewrite Hf. simpl. rewrite Hc. simpl.
  destruct newPassword as [p|]; [|reflexivity].
  rewrite Hs. reflexivity.
Qed.

Lemma reset_accepted email oldPassword p w u :
  find (matches (WhereEmail email)) (table w) = Some u ->
  bcrypt_compare oldPassword (Auth.password u) = true ->
  too_short (Some p) = false ->
  let u' := set_password u (bcrypt_digest (genSalt (entropy w)) p 10) in
  resetPassword email oldPassword (Some p) w =
    (Ok {| reset_message := "Password changed successfully!" |},
     {| table := match id u with
                 | Some i => update_row i u' (table w)
                 | None => table w ++ [set_id u' (genId (S (entropy w)))]
                 end;
        entropy := match id u with
                   | Some _ => S (entropy w)
                   | None => S (S (entropy w))
                   end;
        calls := calls w ++ [CallFindOne (WhereEmail email); CallSave u'] |}).
Proof.
  intros Hf Hc Hs u'.
  unfold resetPassword, bind, userRepo_findOne, throw.
  rewrite Hf. simpl. rewrite Hc. simpl.
  change ((p =? "") || Nat.ltb (String.length p) 6) with (too_short (Some p)).
  rewrite Hs.
  unfold userRepo_save, bcrypt_hash, ret. simpl. fold u'.
  destruct (id u) as [i|] eqn:Hi; simpl.
  - assert (He : existsb (has_id i) (table w) = true).
    { apply find_some in Hf. destruct Hf as [Hin _].
      apply existsb_exists. exists u. split; [exact Hin|].
      unfold has_id. rewrite Hi. apply String.eqb_refl. }
    rewrite He. simpl. rewrite <- app_assoc. reflexivity.
  - rewrite <- app_assoc. reflexivity.
Qed.

(** ** Properties of login, register and resetPassword *)

(** C2. login(email, P): with no user under the email it throws
    Unauthorized("User Not Found"); with a user whose stored hash P does
    not compare to, Unauthorized("Invalid Password"); it succeeds exactly
    when the comparison succeeds, returning the user's display name and the
    token signed over the claims (sub = the user's id, username). *)
Theorem login_spec (w : World) (email P : string) :
  (find (matches (WhereEmail email)) (table w) = None ->
   fst (login email P w) = Throw (UnauthorizedException "User Not Found")) /\
  (forall u,
     find (matches (WhereEmail email)) (table w) = Some u ->
     (bcrypt_compare P (Auth.password u) = false ->
      fst (login email P w) = Throw (UnauthorizedException "Invalid Password")) /\
     (bcrypt_compare P (Auth.password u) = true ->
      fst (login email P w) =
        Ok {| login_message := "Login successful";
              login_name := Auth.name u;
              accessToken :=
                jwtService_sign {| sub := id u;
                                   payload_username := Auth.username u |} |})) /\
  ((exists r, fst (login email P w) = Ok r) <->
   (exists u, find (matches (WhereEmail email)) (table w) = Some u /\
              bcrypt_compare P (Auth.password u) = true)).
Proof.
  rewrite login_run. simpl.
  destruct (find (matches (WhereEmail email)) (table w)) as [u|].
  - split; [discriminate|]. split.
    + intros u' Hu. injection Hu as <-. split; intros ->; reflexivity.
    + destruct (bcrypt_compare P (Auth.password u)) eqn:Hc; split.
      * intros _. exists u. split; [reflexivity | exact Hc].
      * intros _. eexists. reflexivity.
      * intros [r Hr]. discriminate.
      * intros [u' [Hu Hc']]. injection Hu as <-. congruence.
  - split; [reflexivity|]. split.
    + intros u Hu. discriminate.
    + split.
      * intros [r Hr]. discriminate.
      * intros [u [Hu _]]. discriminate.
Qed.

(** C3. resetPassword checks in a fixed order: NotFound when no user has
    the email; else Unauthorized("Old password is incorrect") when the old
    password does not compare to the stored hash, whatever the new password
    is; else BadRequest when the new password is absent, empty or shorter
    than 6; else it succeeds. *)
Theorem resetPassword_check_order (w : World) (email oldPassword : string)
        (newPassword : option string) :
  (find (matches (WhereEmail email)) (table w) = None ->
   fst (resetPassword email oldPassword newPassword w) =
     Throw (NotFoundException "No user found with this email")) /\
  (forall u,
     find (matches (WhereEmail email)) (table w) = Some u ->
     (bcrypt_compare oldPassword (Auth.password u) = false ->
      fst (resetPassword email oldPassword newPassword w) =
        Throw (UnauthorizedException "Old password is incorrect")) /\
     (bcrypt_compare oldPassword (Auth.password u) = true ->
      (newPassword = None \/ newPassword = Some "" \/
       (exists p, newPassword = Some p /\ String.length p < 6) ->
       fst (resetPassword email oldPassword newPassword w) =
         Throw (BadRequestException
                  "New password must be at least 6 characters long")) /\
      (forall p, newPassword = Some p -> 6 <= String.length p ->
       fst (resetPassword email oldPassword newPassword w) =
         Ok {| reset_message := "Password changed successfully!" |}))).
Proof.
  split.
  - intros Hf. rewrite (reset_no_user _ _ _ _ Hf). reflexivity.
  - intros u Hf. split.
    + intros Hc. rewrite (reset_wrong_old _ _ _ _ _ Hf Hc). reflexivity.
    + intros Hc. split.
      * intros Hs.
        assert (Ht : too_short newPassword = true).
        { destruct Hs as [-> | [-> | [p [-> Hp]]]]; try reflexivity.
          simpl. apply orb_true_iff. right. apply Nat.ltb_lt. exact Hp. }
        rewrite (reset_too_short _ _ _ _ _ Hf Hc Ht). reflexivity.
      * intros p -> Hp.
        assert (Ht : too_short (Some p) = false).
        { simpl. apply orb_false_iff. split.
          - apply String.eqb_neq. intros ->. simpl in Hp. lia.
          - apply Nat.ltb_ge. exact Hp. }
        rewrite (reset_accepted _ _ _ _ _ Hf Hc Ht). reflexivity.
Qed.

(** C4. register throws Conflict whenever the email is registered,
    whatever the username; it throws Conflict when the username is taken
    and the email is fresh; the email is looked up first, so when both
    collide the caller sees the email error. *)
Theorem register_conflicts (w : World) (email name username password : string) :
  (email_registered email (table w) = true ->
   fst (register email name username password w) =
     Throw (ConflictException "User already exists with this email")) /\
  (email_registered email (table w) = false ->
   username_taken username (table w) = true ->
   fst (register email name username password w) =
     Throw (ConflictException "Username is already taken")) /\
  (email_registered email (table w) = true ->
   username_taken username (table w) = true ->
   fst (register email name username password w) =
     Throw (ConflictException "User already exists with this email") /\
   calls (snd (register email name username password w)) =
     (calls w ++ [CallFindOne (WhereEmail email)])%list).
Proof.
  split; [|split].
  - intros He. apply find_used in He. destruct He as [u Hu].
    rewrite (register_email_used _ _ _ _ _ _ Hu). reflexivity.
  - intros He Hn. apply find_fresh in He. apply find_used in Hn.
    destruct Hn as [u Hu].
    rewrite (register_username_used _ _ _ _ _ _ He Hu). reflexivity.
  - intros He _. apply find_used in He. destruct He as [u Hu].
    rewrite (register_email_used _ _ _ _ _ _ Hu). split; reflexivity.
Qed.

(** C6. With a fresh email and username, register hashes the password
    with cost 10, persists one new row whose password field is that hash
    (and so differs from the plaintext, as a bcrypt digest does), and
    returns the success message with a view made of id, username, name and
    email; the view has no password field and is the same whatever the
    password was. *)
Theorem register_persists_hash
        (digest_differs : forall salt p, bcrypt_digest salt p 10 <> p)
        (w : World) (email name username password : string) :
  email_registered email (table w) = false ->
  username_taken username (table w) = false ->
  let hashed := bcrypt_digest (genSalt (entropy w)) password 10 in
  let row := {| id := Some (genId (S (entropy w))); username := username;
                name := name; email := email; password := hashed |} in
  fst (register email name username password w) =
    Ok {| register_message := "User created successfully!";
          user := {| view_id := id row; view_username := username;
                     view_name := name; view_email := email |} |} /\
  table (snd (register email name username password w)) =
    (table w ++ [row])%list /\
  Auth.password row <> password /\
  (forall password',
     fst (register email name username password' w) =
     fst (register email name username password w)).
Proof.
  intros He Hn hashed row.
  apply find_fresh in He. apply find_fresh in Hn.
  rewrite (register_fresh _ _ _ _ _ He Hn). simpl.
  repeat split.
  - apply digest_differs.
  - intros password'. rewrite (register_fresh _ _ _ password' _ He Hn).
    reflexivity.
Qed.

(** C7. register has no minimum password length: with a fresh email and
    username it succeeds for every password, the empty one included, while
    resetPassword refuses a new password shorter than 6 for a user whose
    old password was accepted. *)
Theorem register_no_minimum_length (w : World)
        (email name username password : string) :
  email_registered email (table w) = false ->
  username_taken username (table w) = false ->
  (exists r, fst (register email name username password w) = Ok r) /\
  (exists r, fst (register email name username "" w) = Ok r) /\
  (forall email' oldPassword u,
     find (matches (WhereEmail email')) (table w) = Some u ->
     bcrypt_compare oldPassword (Auth.password u) = true ->
     String.length password < 6 ->
     fst (resetPassword email' oldPassword (Some password) w) =
       Throw (BadRequestException
                "New password must be at least 6 characters long")).
Proof.
  intros He Hn. apply find_fresh in He. apply find_fresh in Hn.
  split; [|split].
  - rewrite (register_fresh _ _ _ _ _ He Hn). eexists. reflexivity.
  - rewrite (register_fresh _ _ _ _ _ He Hn). eexists. reflexivity.
  - intros email' oldPassword u Hf Hc Hp.
    assert (Ht : too_short (Some password) = true).
    { simpl. apply orb_true_iff. right. apply Nat.ltb_lt. exact Hp. }
    rewrite (reset_too_short _ _ _ _ _ Hf Hc Ht). reflexivity.
Qed.

(** C8. When register, login or resetPassword ends with an exception, the
    store has received lookups only: no create, no save, and the rows are
    those from before the call. *)
Theorem failure_is_atomic (op : Operation) (w : World) (e : HttpException) :
  fst (perform op w) = Some e ->
  untouched w (snd (perform op w)) /\
  (forall c, In c (calls (snd (perform op w))) ->
     In c (calls w) \/ is_read c = true).
Proof.
  intros Hfail.
  assert (Hu : untouched w (snd (perform op w))).
  { destruct op as [email name username password | email password
                   | email oldPassword newPassword]; simpl in *;
      rewrite snd_failure; apply failure_thrown in Hfail.
    - destruct (find (matches (WhereEmail email)) (table w)) as [u|] eqn:He.
      + rewrite (register_email_used _ name username password _ _ He).
        apply untouched_log, untouched_refl.
      + destruct (find (matches (WhereUsername username)) (table w))
          as [u|] eqn:Hn.
        * rewrite (register_username_used _ name _ password _ _ He Hn).
          apply untouched_log, untouched_log, untouched_refl.
        * rewrite (register_fresh _ name _ password _ He Hn) in Hfail.
          discriminate.
    - rewrite login_run. apply untouched_log, untouched_refl.
    - destruct (find (matches (WhereEmail email)) (table w)) as [u|] eqn:He.
      + destruct (bcrypt_compare oldPassword (Auth.password u)) eqn:Hc.
        * destruct (too_short newPassword) eqn:Ht.
          -- rewrite (reset_too_short _ _ _ _ _ He Hc Ht).
             apply untouched_log, untouched_refl.
          -- destruct newPassword as [p|]; [|discriminate].
             rewrite (reset_accepted _ _ _ _ _ He Hc Ht) in Hfail.
             discriminate.
        * rewrite (reset_wrong_old _ _ newPassword _ _ He Hc).
          apply untouched_log, untouched_refl.
      + rewrite (reset_no_user _ oldPassword newPassword _ He).
        apply untouched_log, untouched_refl. }
  split; [exact Hu|].
  destruct Hu as [_ [_ [reads [Hc Hr]]]].
  intros c Hin. rewrite Hc in Hin. apply in_app_or in Hin.
  destruct Hin as [Hin|Hin]; [left; exact Hin|right].
  rewrite forallb_forall in Hr. apply Hr. exact Hin.
Qed.

(** The id invariant of the table survives every operation. *)
Lemma table_ok_preserved (op : Operation) (w : World) :
  table_ok (table w) = true -> table_ok (table (snd (perform op w))) = true.
Proof.
  intros Hok.
  destruct op as [email name username password | email password
                 | email oldPassword newPassword]; simpl;
    rewrite snd_failure.
  - destruct (find (matches (WhereEmail email)) (table w)) as [u|] eqn:He.
    + rewrite (register_email_used _ name username password _ _ He). exact Hok.
    + destruct (find (matches (WhereUsername username)) (table w))
        as [u|] eqn:Hn.
      * rewrite (register_username_used _ name _ password _ _ He Hn). exact Hok.
      * rewrite (register_fresh _ name _ password _ He Hn). simpl.
        unfold table_ok in *. rewrite forallb_app, Hok. reflexivity.
  - rewrite login_run. exact Hok.
  - destruct (find (matches (WhereEmail email)) (table w)) as [u|] eqn:He.
    + destruct (bcrypt_compare oldPassword (Auth.password u)) eqn:Hc.
      * destruct (too_short newPassword) eqn:Ht.
        -- rewrite (reset_too_short _ _ _ _ _ He Hc Ht). exact Hok.
        -- destruct newPassword as [p|]; [|discriminate].
           rewrite (reset_accepted _ _ _ _ _ He Hc Ht). simpl.
           destruct (found_has_id _ _ _ Hok He) as [i Hi]. rewrite Hi.
           unfold table_ok, update_row in *. rewrite forallb_forall in *.
           intros r Hr. apply in_map_iff in Hr. destruct Hr as [r0 [Hr0 Hin]].
           destruct (has_id i r0); subst r.
           ++ simpl. rewrite Hi. reflexivity.
           ++ apply Hok. exact Hin.
      * rewrite (reset_wrong_old _ _ newPassword _ _ He Hc). exact Hok.
    + rewrite (reset_no_user _ oldPassword newPassword _ He). exact Hok.
Qed.

(** What a successful resetPassword leaves in the store. *)
Lemma reset_success_inv (w : World) (email oldPassword p : string)
      (r : ResetResponse) :
  table_ok (table w) = true ->
  fst (resetPassword email oldPassword (Some p) w) = Ok r ->
  exists u i,
    find (matches (WhereEmail email)) (table w) = Some u /\
    id u = Some i /\
    table (snd (resetPassword email oldPassword (Some p) w)) =
      update_row i (set_password u (bcrypt_digest (genSalt (entropy w)) p 10))
                 (table w).
Proof.
  intros Hok Hr.
  destruct (find (matches (WhereEmail email)) (table w)) as [u|] eqn:He.
  - destruct (bcrypt_compare oldPassword (Auth.password u)) eqn:Hc.
    + destruct (too_short (Some p)) eqn:Ht.
      * rewrite (reset_too_short _ _ _ _ _ He Hc Ht) in Hr. discriminate.
      * destruct (found_has_id _ _ _ Hok He) as [i Hi].
        exists u, i. split; [reflexivity|]. split; [exact Hi|].
        rewrite (reset_accepted _ _ _ _ _ He Hc Ht). simpl. rewrite Hi.
        reflexivity.
    + rewrite (reset_wrong_old _ _ _ _ _ He Hc) in Hr. discriminate.
  - rewrite (reset_no_user _ _ _ _ He) in Hr. discriminate.
Qed.

(** C5, as the code has it. After a successful
    resetPassword(email, old, new), login(email, new) succeeds (bcrypt
    accepting a password against its own digest); login(email, old) throws
    Unauthorized("Invalid Password") when the old password does not compare
    to the new hash, and succeeds when it does, as for old = new, which
    resetPassword does not refuse. *)
Theorem reset_then_login
        (compare_digest :
           forall salt p, bcrypt_compare p (bcrypt_digest salt p 10) = true)
        (w : World) (email oldPassword newPassword : string)
        (r : ResetResponse) :
  table_ok (table w) = true ->
  fst (resetPassword email oldPassword (Some newPassword) w) = Ok r ->
  let w' := snd (resetPassword email oldPassword (Some newPassword) w) in
  let stored := bcrypt_digest (genSalt (entropy w)) newPassword 10 in
  (exists r', fst (login email newPassword w') = Ok r') /\
  (bcrypt_compare oldPassword stored = false ->
   fst (login email oldPassword w') =
     Throw (UnauthorizedException "Invalid Password")) /\
  (bcrypt_compare oldPassword stored = true ->
   exists r', fst (login email oldPassword w') = Ok r').
Proof.
  intros Hok Hr w' stored.
  destruct (reset_success_inv _ _ _ _ _ Hok Hr) as [u [i [Hf [Hi Ht]]]].
  assert (Hfind : find (matches (WhereEmail email)) (table w') =
                  Some (set_password u stored)).
  { unfold w'. rewrite Ht. apply (find_update_row _ _ u); try assumption.
    simpl. apply find_some in Hf. destruct Hf as [_ Hm]. simpl in Hm.
    apply String.eqb_eq. exact Hm. }
  split; [|split].
  - rewrite login_run. simpl. rewrite Hfind. simpl.
    unfold stored. rewrite compare_digest. eexists. reflexivity.
  - intros Hc. rewrite login_run. simpl. rewrite Hfind. simpl.
    rewrite Hc. reflexivity.
  - intros Hc. rewrite login_run. simpl. rewrite Hfind. simpl.
    rewrite Hc. eexists. reflexivity.
Qed.

End Facts.

End AuthFacts.

(** * The stand-ins behave as the properties above assume *)

Module MockFacts.

Lemma length_append (s t : string) :
  String.length (s ++ t) = String.length s + String.length t.
Proof. induction s as [|c s IH]; simpl; [reflexivity | now rewrite IH]. Qed.

Lemma mock_compare_digest (salt p : string) :
  Mock.compare p (Mock.digest salt p 10) = true.
Proof.
  unfold Mock.compare, Mock.digest.
  induction p as [|c p IH]; simpl.
  - destruct salt; reflexivity.
  - destruct (ascii_dec c c) as [_|Hne]; [exact IH | contradiction].
Qed.

Lemma mock_digest_differs (salt p : string) : Mock.digest salt p 10 <> p.
Proof.
  unfold Mock.digest. intros Heq.
  apply (f_equal String.length) in Heq.
  rewrite length_append in Heq. simpl in Heq. lia.
Qed.

End MockFacts.

(** * The properties at the spec's scenario *)

Module AuthWitness.
Import Http Eff Auth.

Lemma login_spec_witness :
  fst (@login Mock.collaborators "a@x.com" "secret1" Mock.one_user) =
    Ok {| login_message := "Login successful"; login_name := "A";
          accessToken := "mockAccessToken" |} /\
  fst (@login Mock.collaborators "a@x.com" "wrong" Mock.one_user) =
    Throw (UnauthorizedException "Invalid Password") /\
  fst (@login Mock.collaborators "b@x.com" "secret1" Mock.one_user) =
    Throw (UnauthorizedException "User Not Found").
Proof.
  split; [|split].
  - destruct (@AuthFacts.login_spec Mock.collaborators Mock.one_user
                "a@x.com" "secret1") as [_ [Hfound _]].
    destruct (Hfound Mock.alice eq_refl) as [_ Hok].
    apply Hok. reflexivity.
  - destruct (@AuthFacts.login_spec Mock.collaborators Mock.one_user
                "a@x.com" "wrong") as [_ [Hfound _]].
    destruct (Hfound Mock.alice eq_refl) as [Hbad _].
    apply Hbad. reflexivity.
  - destruct (@AuthFacts.login_spec Mock.collaborators Mock.one_user
                "b@x.com" "secret1") as [Hnone _].
    apply Hnone. reflexivity.
Defined.

Lemma resetPassword_check_order_witness :
  fst (@resetPassword Mock.collaborators "a@x.com" "wrong" (Some "12345")
         Mock.one_user) =
    Throw (UnauthorizedException "Old password is incorrect") /\
  fst (@resetPassword Mock.collaborators "a@x.com" "secret1" (Some "12345")
         Mock.one_user) =
    Throw (BadRequestException
             "New password must be at least 6 characters long") /\
  fst (@resetPassword Mock.collaborators "a@x.com" "secret1" (Some "123456")
         Mock.one_user) =
    Ok {| reset_message := "Password changed successfully!" |}.
Proof.
  split; [|split].
  - destruct (@AuthFacts.resetPassword_check_order Mock.collaborators
                Mock.one_user "a@x.com" "wrong" (Some "12345")) as [_ Hfound].
    destruct (Hfound Mock.alice eq_refl) as [Hbad _].
    apply Hbad. reflexivity.
  - destruct (@AuthFacts.resetPassword_check_order Mock.collaborators
                Mock.one_user "a@x.com" "secret1" (Some "12345")) as [_ Hfound].
    destruct (Hfound Mock.alice eq_refl) as [_ Hgood].
    destruct (Hgood eq_refl) as [Hshort _].
    apply Hshort. right. right. exists "12345". split; [reflexivity|].
    simpl. lia.
  - destruct (@AuthFacts.resetPassword_check_order Mock.collaborators
                Mock.one_user "a@x.com" "secret1" (Some "123456")) as [_ Hfound].
    destruct (Hfound Mock.alice eq_refl) as [_ Hgood].
    destruct (Hgood eq_refl) as [_ Hlong].
    apply (Hlong "123456"); [reflexivity|]. simpl. lia.
Defined.

Lemma register_conflicts_witness :
  fst (@register Mock.collaborators "a@x.com" "B" "b1" "secret2"
         Mock.one_user) =
    Throw (ConflictException "User already exists with this email") /\
  fst (@register Mock.collaborators "b@x.com" "B" "a1" "secret2"
         Mock.one_user) =
    Throw (ConflictException "Username is already taken") /\
  fst (@register Mock.collaborators "a@x.com" "B" "a1" "secret2"
         Mock.one_user) =
    Throw (ConflictException "User already exists with this email").
Proof.
  split; [|split].
  - destruct (@AuthFacts.register_conflicts Mock.collaborators Mock.one_user
                "a@x.com" "B" "b1" "secret2") as [Hemail _].
    apply Hemail. reflexivity.
  - destruct (@AuthFacts.register_conflicts Mock.collaborators Mock.one_user
                "b@x.com" "B" "a1" "secret2") as [_ [Hname _]].
    apply Hname; reflexivity.
  - destruct (@AuthFacts.register_conflicts Mock.collaborators Mock.one_user
                "a@x.com" "B" "a1" "secret2") as [_ [_ Hboth]].
    apply Hboth; reflexivity.
Defined.

Lemma register_persists_hash_witness :
  fst (@register Mock.collaborators "b@x.com" "B" "b1" "secret2"
         Mock.one_user) =
    Ok {| register_message := "User created successfully!";
          user := {| view_id := Some "id-1"; view_username := "b1";
                     view_name := "B"; view_email := "b@x.com" |} |} /\
  table (snd (@register Mock.collaborators "b@x.com" "B" "b1" "secret2"
                Mock.one_user)) =
    [Mock.alice;
     {| id := Some "id-1"; username := "b1"; name := "B";
        email := "b@x.com"; password := "secret2$a" |}].
Proof.
  destruct (@AuthFacts.register_persists_hash Mock.collaborators
              MockFacts.mock_digest_differs Mock.one_user
              "b@x.com" "B" "b1" "secret2" eq_refl eq_refl)
    as [Hres [Htable _]].
  split; [exact Hres | exact Htable].
Defined.

Lemma register_no_minimum_length_witness :
  (exists r, fst (@register Mock.collaborators "b@x.com" "B" "b1" "12345"
                    Mock.one_user) = Ok r) /\
  fst (@resetPassword Mock.collaborators "a@x.com" "secret1" (Some "12345")
         Mock.one_user) =
    Throw (BadRequestException
             "New password must be at least 6 characters long").
Proof.
  destruct (@AuthFacts.register_no_minimum_length Mock.collaborators
              Mock.one_user "b@x.com" "B" "b1" "12345" eq_refl eq_refl)
    as [Hreg [_ Hreset]].
  split; [exact Hreg|].
  apply (Hreset "a@x.com" "secret1" Mock.alice); [reflexivity|reflexivity|].
  simpl. lia.
Defined.

Lemma failure_is_atomic_witness :
  table (snd (@perform Mock.collaborators
                (ResetPassword "a@x.com" "secret1" (Some "12345"))
                Mock.one_user)) = [Mock.alice].
Proof.
  destruct (@AuthFacts.failure_is_atomic Mock.collaborators
              (ResetPassword "a@x.com" "secret1" (Some "12345"))
              Mock.one_user
              (BadRequestException
                 "New password must be at least 6 characters long")
              eq_refl) as [[Htable _] _].
  exact Htable.
Defined.

Lemma reset_then_login_witness :
  (exists r, fst (@login Mock.collaborators "a@x.com" "123456"
                    (snd (@resetPassword Mock.collaborators "a@x.com"
                            "secret1" (Some "123456") Mock.one_user))) = Ok r) /\
  fst (@login Mock.collaborators "a@x.com" "secret1"
         (snd (@resetPassword Mock.collaborators "a@x.com"
                 "secret1" (Some "123456") Mock.one_user))) =
    Throw (UnauthorizedException "Invalid Password").
Proof.
  destruct (@AuthFacts.reset_then_login Mock.collaborators
              MockFacts.mock_compare_digest Mock.one_user
              "a@x.com" "secret1" "123456"
              {| reset_message := "Password changed successfully!" |}
              eq_refl eq_refl) as [Hnew [Hold _]].
  split; [exact Hnew|]. apply Hold. reflexivity.
Defined.

(** C5 as stated fails: resetPassword accepts a new password equal to the
    old one, and the old password then still logs in. *)
Lemma login_with_old_password_after_reset :
  fst (@resetPassword Mock.collaborators "a@x.com" "secret1" (Some "secret1")
         Mock.one_user) =
    Ok {| reset_message := "Password changed successfully!" |} /\
  fst (@login Mock.collaborators "a@x.com" "secret1"
         (snd (@resetPassword Mock.collaborators "a@x.com"
                 "secret1" (Some "secret1") Mock.one_user))) =
    Ok {| login_message := "Login successful"; login_name := "A";
          accessToken := "mockAccessToken" |} /\
  ~ (exists m,
       fst (@login Mock.collaborators "a@x.com" "secret1"
              (snd (@resetPassword Mock.collaborators "a@x.com"
                      "secret1" (Some "secret1") Mock.one_user))) =
         Throw (UnauthorizedException m)).
Proof.
  split; [reflexivity|]. split; [reflexivity|].
  intros [m Hm]. vm_compute in Hm. discriminate.
Qed.

(** The scenario of the spec's section 8, from an empty store. *)
Example register_then_login :
  let empty := {| table := []; entropy := 0; calls := [] |} in
  let registered :=
    @register Mock.collaborators "a@x.com" "A" "a1" "secret1" empty in
  fst registered =
    Ok {| register_message := "User created successfully!";
          user := {| view_id := Some "id-1"; view_username := "a1";
                     view_name := "A"; view_email := "a@x.com" |} |} /\
  fst (@login Mock.collaborators "a@x.com" "secret1" (snd registered)) =
    Ok {| login_message := "Login successful"; login_name := "A";
          accessToken := "mockAccessToken" |} /\
  fst (@login Mock.collaborators "a@x.com" "wrong" (snd registered)) =
    Throw (UnauthorizedException "Invalid Password").
Proof. repeat split. Qed.

End AuthWitness.

(** * Deleting a task *)

Module TasksFacts.
Import Http Eff Tasks.

Lemma filter_none {A} (f : A -> bool) (l : list A) :
  existsb f l = false ->
  filter f l = [] /\ filter (fun x => negb (f x)) l = l.
Proof.
  induction l as [|x l IH]; simpl; [split; reflexivity|].
  destruct (f x); simpl; [discriminate|].
  intros Hl. destruct (IH Hl) as [H1 H2]. split; [exact H1 | now rewrite H2].
Qed.

Lemma deleteTask_run (i : string) (w : World) :
  deleteTask i w =
    if i =? ""
    then (Rejected (TypeORMError
                      "Empty criteria(s) are not allowed for the delete method."),
          {| table := table w; calls := calls w ++ [CallDelete i] |})
    else (Fulfilled "Task Deleted Successfully!",
          {| table := filter (fun t => negb (has_id i t)) (table w);
             calls := calls w ++ [CallDelete i] |}).
Proof.
  unfold deleteTask, tasksRepo_delete, await, resolve.
  destruct (i =? ""); reflexivity.
Qed.

(** C9, as the code has it. For every id but the empty string,
    deleteTask(id) returns "Task Deleted Successfully!", at the service
    and through the controller, also when no stored task has the id: the
    store then removes nothing and reports 0 rows affected, and the answer
    is the same, since the store's result is dropped. For no id is a
    not-found error reported. On the empty id the store's delete is
    rejected and deleteTask passes the rejection on, with the rows
    untouched. *)
Theorem deleteTask_reports_success (id : string) (w : World) :
  (id <> "" ->
   fst (deleteTask id w) = Fulfilled "Task Deleted Successfully!" /\
   fst (controller_deleteTask id w) = Fulfilled "Task Deleted Successfully!" /\
   (existsb (has_id id) (table w) = false ->
    fst (tasksRepo_delete id w) = Fulfilled {| affected := 0 |} /\
    table (snd (deleteTask id w)) = table w)) /\
  (forall m,
     fst (deleteTask id w) <> Rejected (HttpRejection (NotFoundException m))) /\
  (id = "" ->
   fst (deleteTask id w) =
     Rejected (TypeORMError
                 "Empty criteria(s) are not allowed for the delete method.") /\
   table (snd (deleteTask id w)) = table w).
Proof.
  split; [|split].
  - intros Hid. apply String.eqb_neq in Hid.
    unfold controller_deleteTask, await, resolve.
    rewrite deleteTask_run. unfold tasksRepo_delete. rewrite Hid. simpl.
    split; [reflexivity|]. split; [reflexivity|].
    intros Hnone. destruct (filter_none _ _ Hnone) as [Hf Hk].
    rewrite Hf, Hk. split; reflexivity.
  - intros m. rewrite deleteTask_run. destruct (id =? ""); discriminate.
  - intros ->. rewrite deleteTask_run. simpl. split; reflexivity.
Qed.

Lemma deleteTask_reports_success_witness :
  fst (deleteTask "non-existent-id"
         {| table := [ {| id := "1"; title := "Test Task";
                          description := "Test Description";
                          completed := false |} ];
            calls := [] |}) = Fulfilled "Task Deleted Successfully!" /\
  table (snd (deleteTask "non-existent-id"
                {| table := [ {| id := "1"; title := "Test Task";
                                 description := "Test Description";
                                 completed := false |} ];
                   calls := [] |})) =
    [ {| id := "1"; title := "Test Task";
         description := "Test Description"; completed := false |} ].
Proof.
  destruct (deleteTask_reports_success "non-existent-id"
              {| table := [ {| id := "1"; title := "Test Task";
                               description := "Test Description";
                               completed := false |} ];
                 calls := [] |}) as [Hsome _].
  destruct Hsome as [Hmsg [_ Hnone]]; [discriminate|].
  destruct (Hnone eq_refl) as [_ Htable].
  split; [exact Hmsg | exact Htable].
Defined.

(** C9 as stated fails at the empty id: the store rejects the delete and
    deleteTask returns no message. *)
Lemma deleteTask_empty_id_is_rejected :
  fst (deleteTask ""
         {| table := [ {| id := "1"; title := "Test Task";
                          description := "Test Description";
                          completed := false |} ];
            calls := [] |}) =
    Rejected (TypeORMError
                "Empty criteria(s) are not allowed for the delete method.") /\
  fst (deleteTask ""
         {| table := [ {| id := "1"; title := "Test Task";
                          description := "Test Description";
                          completed := false |} ];
            calls := [] |}) <> Fulfilled "Task Deleted Successfully!".
Proof. split; [reflexivity | discriminate]. Qed.

End TasksFacts.

(** * The upper-case pipe *)

Module PipesFacts.
Import Http Pipes.

Section Facts.

Variable toUpperCase : string -> string.

(** The second conjunct of the guard compares a [typeof] result, a string,
    with null: it never fails. *)
Lemma null_guard_void (v : JsValue) :
  negb (string_strict_equals (typeof v) JsNull) = true.
Proof. reflexivity. Qed.

Lemma transform_by_typeof (v : JsValue) :
  transform toUpperCase v =
    if typeof v =? "object" then Ok (for_in_upper toUpperCase v)
    else if typeof v =? "string" then Ok (call_toUpperCase toUpperCase v)
    else Throw (BadRequestException
                  "Validation failed: value must be string or object").
Proof.
  unfold transform. rewrite null_guard_void, andb_true_r. reflexivity.
Qed.

(** C10. transform throws BadRequestException exactly when [typeof] of
    its input is neither 'object' nor 'string'; the null guard compares a
    [typeof] result with null, which never holds, and [typeof null] is
    'object', so transform(null) takes the object branch and returns null
    unchanged. *)
Theorem transform_throws_iff_not_object_nor_string (v : JsValue) :
  ((exists e, transform toUpperCase v = Throw e) <->
   (typeof v <> "object" /\ typeof v <> "string")) /\
  (forall e, transform toUpperCase v = Throw e ->
     e = BadRequestException
           "Validation failed: value must be string or object") /\
  string_strict_equals (typeof v) JsNull = false /\
  typeof JsNull = "object" /\
  transform toUpperCase JsNull = Ok JsNull.
Proof.
  split; [|split; [|repeat split]].
  - rewrite transform_by_typeof.
    destruct (typeof v =? "object") eqn:Ho.
    + apply String.eqb_eq in Ho. split.
      * intros [e He]. discriminate.
      * intros [Hno _]. contradiction.
    + apply String.eqb_neq in Ho.
      destruct (typeof v =? "string") eqn:Hs.
      * apply String.eqb_eq in Hs. split.
        -- intros [e He]. discriminate.
        -- intros [_ Hns]. contradiction.
      * apply String.eqb_neq in Hs. split.
        -- intros _. split; assumption.
        -- intros _. eexists. reflexivity.
  - intros e. rewrite transform_by_typeof.
    destruct (typeof v =? "object"); [discriminate|].
    destruct (typeof v =? "string"); [discriminate|].
    intros He. injection He as <-. reflexivity.
Qed.

End Facts.

(** The pipe on sample inputs. *)
Example transform_object :
  transform Mock.upper
    (JsObject [("title", JsString "write docs"); ("done", JsBoolean false)]) =
  Ok (JsObject [("title", JsString "WRITE DOCS"); ("done", JsBoolean false)]).
Proof. reflexivity. Qed.

Example transform_number :
  transform Mock.upper (JsNumber 3) =
  Throw (BadRequestException
           "Validation failed: value must be string or object").
Proof. reflexivity. Qed.

End PipesFacts.

(** * The guard in front of the tasks controller *)

Module GuardFacts.
Import Http Eff Guard.

Section Facts.

Context `{TokenIssuer}.
Variable now : nat.
Variable middleware_mounted : bool.
Variable Response : Type.
Variable handler : Request -> Result Response.

Lemma handler_calls_log (tr : list Event) (line : string) :
  handler_calls (tr ++ [ConsoleLog line]) = handler_calls tr.
Proof.
  unfold handler_calls. rewrite filter_app. simpl. apply app_nil_r.
Qed.

Lemma handler_calls_handler (tr : list Event) (req : Request) :
  handler_calls (tr ++ [TaskHandler req]) =
  (handler_calls tr ++ [TaskHandler req])%list.
Proof. unfold handler_calls. rewrite filter_app. reflexivity. Qed.

(** AuthMiddleware.use lets every request through. *)
Lemma AuthMiddleware_passes {A} (req : Request) (next : M (list Event) A)
      (tr : list Event) :
  AuthMiddleware_use req next tr =
  next (tr ++ [ConsoleLog ("[Middlware] From Body: " ++ body req)])%list.
Proof. reflexivity. Qed.

Lemma guard_by_credential (req : Request) :
  JwtAuthGuard_canActivate now req =
    match credential now req with
    | Valid c => Ok (set_user req c)
    | _ => Throw (UnauthorizedException "Unauthorized")
    end.
Proof.
  unfold JwtAuthGuard_canActivate, credential, verify.
  destruct (authorization req) as [header|]; [|reflexivity].
  destruct (bearer_token header) as [token|]; [|reflexivity].
  destruct (decode token) as [t|]; [|reflexivity].
  rewrite Nat.ltb_antisym.
  destruct (signature_verifies t); simpl; [|reflexivity].
  destruct (Nat.leb (exp t) now); reflexivity.
Qed.

Lemma guarded_by_credential (req : Request) (tr : list Event) :
  match credential now req with
  | Valid c =>
      fst (guarded now Response handler req tr) = handler (set_user req c) /\
      handler_calls (snd (guarded now Response handler req tr)) =
        (handler_calls tr ++ [TaskHandler (set_user req c)])%list
  | _ =>
      guarded now Response handler req tr =
        (Throw (UnauthorizedException "Unauthorized"), tr)
  end.
Proof.
  unfold guarded. rewrite guard_by_credential.
  destruct (credential now req) as [| | | |c]; try reflexivity.
  unfold AuthLoggingInterceptor_intercept, invoke_handler, bind, console_log,
    ret.
  destruct (handler (set_user req c)) as [r|e]; simpl.
  - split; [reflexivity|].
    rewrite handler_calls_log, handler_calls_handler, handler_calls_log.
    reflexivity.
  - split; [reflexivity|].
    rewrite handler_calls_handler, handler_calls_log. reflexivity.
Qed.

Lemma route_by_credential (req : Request) (tr : list Event) :
  match credential now req with
  | Valid c => reaches_handler now middleware_mounted Response handler req c tr
  | _ => rejected now middleware_mounted Response handler req tr
  end.
Proof.
  unfold reaches_handler, rejected, tasks_route.
  destruct middleware_mounted.
  - rewrite AuthMiddleware_passes.
    pose proof (guarded_by_credential req
                  (tr ++ [ConsoleLog ("[Middlware] From Body: " ++ body req)]))
      as Hg.
    destruct (credential now req) as [| | | |c];
      try (rewrite Hg; simpl; split;
           [reflexivity | apply handler_calls_log]).
    destruct Hg as [Hr Hc]. split; [exact Hr|].
    rewrite Hc, handler_calls_log. reflexivity.
  - pose proof (guarded_by_credential req tr) as Hg.
    destruct (credential now req) as [| | | |c];
      try (rewrite Hg; simpl; split; reflexivity).
    exact Hg.
Qed.

(** C1. A request to a tasks route with no Authorization header, with a
    header that is not a bearer token or a token that does not parse, with a
    token whose signature does not verify, or with an expired token, ends
    with Unauthorized and no task handler runs; a request with a valid
    unexpired bearer token reaches the handler, with the token's identity
    attached. *)
Theorem guard_gates_task_routes (req : Request) (tr : list Event) :
  (authorization req = None ->
   rejected now middleware_mounted Response handler req tr) /\
  (forall header,
     authorization req = Some header ->
     bearer_token header = None ->
     rejected now middleware_mounted Response handler req tr) /\
  (forall header token,
     authorization req = Some header ->
     bearer_token header = Some token ->
     decode token = None ->
     rejected now middleware_mounted Response handler req tr) /\
  (forall header token t,
     authorization req = Some header ->
     bearer_token header = Some token ->
     decode token = Some t ->
     signature_verifies t = false ->
     rejected now middleware_mounted Response handler req tr) /\
  (forall header token t,
     authorization req = Some header ->
     bearer_token header = Some token ->
     decode token = Some t ->
     exp t <= now ->
     rejected now middleware_mounted Response handler req tr) /\
  (forall header token t,
     authorization req = Some header ->
     bearer_token header = Some token ->
     decode token = Some t ->
     signature_verifies t = true ->
     now < exp t ->
     reaches_handler now middleware_mounted Response handler
                     req (claims t) tr).
Proof.
  pose proof (route_by_credential req tr) as Hroute.
  unfold credential in Hroute.
  split; [|split; [|split; [|split; [|split]]]].
  - intros Hh. rewrite Hh in Hroute. exact Hroute.
  - intros header Hh Hb. rewrite Hh, Hb in Hroute. exact Hroute.
  - intros header token Hh Hb Hd. rewrite Hh, Hb, Hd in Hroute. exact Hroute.
  - intros header token t Hh Hb Hd Hs.
    rewrite Hh, Hb, Hd, Hs in Hroute. exact Hroute.
  - intros header token t Hh Hb Hd Hexp.
    rewrite Hh, Hb, Hd in Hroute. apply Nat.leb_le in Hexp.
    rewrite Hexp in Hroute.
    destruct (signature_verifies t); exact Hroute.
  - intros header token t Hh Hb Hd Hs Hlive.
    rewrite Hh, Hb, Hd, Hs in Hroute. apply Nat.leb_gt in Hlive.
    rewrite Hlive in Hroute. exact Hroute.
Qed.

End Facts.

Lemma guard_gates_task_routes_witness :
  let request h :=
    {| authorization := h; method := "GET"; url := "/tasks"; body := "";
       user := None |} in
  @rejected Mock.issuer 50 true string (fun _ => Ok "tasks") (request None) [] /\
  @rejected Mock.issuer 50 true string (fun _ => Ok "tasks")
            (request (Some "Basic good")) [] /\
  @rejected Mock.issuer 50 true string (fun _ => Ok "tasks")
            (request (Some "Bearer garbage")) [] /\
  @rejected Mock.issuer 50 true string (fun _ => Ok "tasks")
            (request (Some "Bearer forged")) [] /\
  @rejected Mock.issuer 100 true string (fun _ => Ok "tasks")
            (request (Some "Bearer good")) [] /\
  @reaches_handler Mock.issuer 50 true string (fun _ => Ok "tasks")
                   (request (Some "Bearer good")) Mock.ayman [].
Proof.
  intros request.
  split; [|split; [|split; [|split; [|split]]]].
  - destruct (@guard_gates_task_routes Mock.issuer 50 true string
                (fun _ => Ok "tasks") (request None) []) as [Hmissing _].
    apply Hmissing. reflexivity.
  - destruct (@guard_gates_task_routes Mock.issuer 50 true string
                (fun _ => Ok "tasks") (request (Some "Basic good")) [])
      as [_ [Hscheme _]].
    apply (Hscheme "Basic good"); reflexivity.
  - destruct (@guard_gates_task_routes Mock.issuer 50 true string
                (fun _ => Ok "tasks") (request (Some "Bearer garbage")) [])
      as [_ [_ [Hparse _]]].
    apply (Hparse "Bearer garbage" "garbage"); reflexivity.
  - destruct (@guard_gates_task_routes Mock.issuer 50 true string
                (fun _ => Ok "tasks") (request (Some "Bearer forged")) [])
      as [_ [_ [_ [Hsig _]]]].
    apply (Hsig "Bearer forged" "forged"
                {| claims := Mock.ayman; exp := 100; signature := "other" |});
      reflexivity.
  - destruct (@guard_gates_task_routes Mock.issuer 100 true string
                (fun _ => Ok "tasks") (request (Some "Bearer good")) [])
      as [_ [_ [_ [_ [Hexpired _]]]]].
    apply (Hexpired "Bearer good" "good"
                    {| claims := Mock.ayman; exp := 100; signature := "hmac" |});
      reflexivity.
  - destruct (@guard_gates_task_routes Mock.issuer 50 true string
                (fun _ => Ok "tasks") (request (Some "Bearer good")) [])
      as [_ [_ [_ [_ [_ Hvalid]]]]].
    apply (Hvalid "Bearer good" "good"
                  {| claims := Mock.ayman; exp := 100; signature := "hmac" |});
      try reflexivity.
    simpl. lia.
Defined.

End GuardFacts.

(** * How the credential operations compose *)

Module AuthMore.
Import Http Eff Auth AuthApi.

Section Facts.

Context `{Collaborators}.

Lemma find_snoc (f : User -> bool) (rows : list User) (x : User) :
  find f (rows ++ [x]) =
    match find f rows with
    | Some u => Some u
    | None => if f x then Some x else None
    end.
Proof.
  induction rows as [|r rows IH]; simpl; [reflexivity|].
  destruct (f r); [reflexivity | exact IH].
Qed.

Lemma find_none_not_in (f : User -> bool) (rows : list User) (u : User) :
  find f rows = None -> In u rows -> f u = false.
Proof.
  intros Hf Hin. destruct (f u) eqn:Hu; [|reflexivity].
  rewrite (find_none f rows Hf u Hin) in Hu. discriminate.
Qed.

Lemma NoDup_map_eq {A B} (f : A -> B) (l : list A) (x y : A) :
  NoDup (map f l) -> In x l -> In y l -> f x = f y -> x = y.
Proof.
  induction l as [|a l IH]; simpl; [contradiction|].
  intros Hnd Hx Hy Hxy. inversion Hnd as [|? ? Hnotin Hnd']; subst.
  destruct Hx as [->|Hx], Hy as [->|Hy].
  - reflexivity.
  - exfalso. apply Hnotin. rewrite Hxy. apply in_map. exact Hy.
  - exfalso. apply Hnotin. rewrite <- Hxy. apply in_map. exact Hx.
  - apply IH; assumption.
Qed.

Lemma NoDup_snoc {B} (l : list B) (b : B) :
  NoDup l -> ~ In b l -> NoDup (l ++ [b]).
Proof.
  intros Hnd Hb. induction l as [|a l IH]; simpl.
  - constructor; [intros []|constructor].
  - inversion Hnd as [|? ? Ha Hnd']; subst. constructor.
    + intros Hin. apply in_app_or in Hin. destruct Hin as [Hin|[->|[]]].
      * contradiction.
      * apply Hb. left. reflexivity.
    + apply IH; [exact Hnd'|]. intros Hin. apply Hb. right. exact Hin.
Qed.

(** Rewriting the row with id [i] keeps every column on which the new
    row agrees with the rows it replaces. *)
Lemma map_update_row {B} (f : User -> B) (i : string) (u' : User)
      (rows : list User) :
  (forall r, In r rows -> has_id i r = true -> f r = f u') ->
  map f (update_row i u' rows) = map f rows.
Proof.
  intros Hsame. unfold update_row. rewrite map_map.
  apply map_ext_in. intros r Hin.
  destruct (has_id i r) eqn:Hr; [symmetry; apply Hsame; assumption | reflexivity].
Qed.

Lemma find_update_row_other (q : FindOptions) (i : string) (u' : User)
      (rows : list User) :
  (forall r, In r rows -> has_id i r = true -> matches q r = false) ->
  matches q u' = false ->
  find (matches q) (update_row i u' rows) = find (matches q) rows.
Proof.
  intros Hrows Hu'. induction rows as [|r rows IH]; simpl; [reflexivity|].
  assert (IH' : find (matches q) (update_row i u' rows) = find (matches q) rows).
  { apply IH. intros r0 Hin. apply Hrows. right. exact Hin. }
  destruct (has_id i r) eqn:Hr.
  - rewrite Hu'. rewrite (Hrows r (or_introl eq_refl) Hr). exact IH'.
  - destruct (matches q r); [reflexivity | exact IH'].
Qed.

Lemma has_id_eq (i : string) (r : User) : has_id i r = true -> id r = Some i.
Proof.
  unfold has_id. destruct (id r) as [j|]; [|discriminate].
  intros Hj. apply String.eqb_eq in Hj. now subst.
Qed.

(** What register leaves behind, by its outcome. *)
Lemma register_outcome email name username password w :
  (exists e, fst (register email name username password w) = Throw e /\
             table (snd (register email name username password w)) = table w /\
             entropy (snd (register email name username password w)) = entropy w) \/
  (find (matches (WhereEmail email)) (table w) = None /\
   find (matches (WhereUsername username)) (table w) = None).
Proof.
  destruct (find (matches (WhereEmail email)) (table w)) as [u|] eqn:He.
  - left. rewrite (AuthFacts.register_email_used _ name username password _ _ He).
    eexists. repeat split.
  - destruct (find (matches (WhereUsername username)) (table w)) as [u|] eqn:Hn.
    + left. rewrite (AuthFacts.register_username_used _ name _ password _ _ He Hn).
      eexists. repeat split.
    + right. split; reflexivity.
Qed.

(** What resetPassword leaves behind, by its outcome. *)
Lemma reset_outcome email oldPassword newPassword w :
  table_ok (table w) = true ->
  (exists e, fst (resetPassword email oldPassword newPassword w) = Throw e /\
             table (snd (resetPassword email oldPassword newPassword w)) = table w /\
             entropy (snd (resetPassword email oldPassword newPassword w)) =
               entropy w) \/
  (exists u i p,
     newPassword = Some p /\
     find (matches (WhereEmail email)) (table w) = Some u /\
     id u = Some i /\
     bcrypt_compare oldPassword (Auth.password u) = true /\
     fst (resetPassword email oldPassword newPassword w) =
       Ok {| reset_message := "Password changed successfully!" |} /\
     table (snd (resetPassword email oldPassword newPassword w)) =
       update_row i (set_password u (bcrypt_digest (genSalt (entropy w)) p 10))
                  (table w) /\
     entropy (snd (resetPassword email oldPassword newPassword w)) =
       S (entropy w)).
Proof.
  intros Hok.
  destruct (find (matches (WhereEmail email)) (table w)) as [u|] eqn:He.
  - destruct (bcrypt_compare oldPassword (Auth.password u)) eqn:Hc.
    + destruct (too_short newPassword) eqn:Ht.
      * left. rewrite (AuthFacts.reset_too_short _ _ _ _ _ He Hc Ht).
        eexists. repeat split.
      * destruct newPassword as [p|]; [|discriminate].
        destruct (AuthFacts.found_has_id _ _ _ Hok He) as [i Hi].
        right. exists u, i, p.
        rewrite (AuthFacts.reset_accepted _ _ _ _ _ He Hc Ht). simpl.
        rewrite Hi. repeat split. exact Hc.
    + left. rewrite (AuthFacts.reset_wrong_old _ _ newPassword _ _ He Hc).
      eexists. repeat split.
  - left. rewrite (AuthFacts.reset_no_user _ oldPassword newPassword _ He).
    eexists. repeat split.
Qed.

Lemma unique_keys_same (w w' : World) :
  table w' = table w -> entropy w' = entropy w ->
  unique_keys w -> unique_keys w'.
Proof.
  unfold unique_keys. intros -> ->. exact (fun x => x).
Qed.

Lemma unique_keys_table_ok (w : World) :
  unique_keys w -> table_ok (table w) = true.
Proof.
  intros [_ [_ [_ Hgen]]]. unfold table_ok. apply forallb_forall.
  intros u Hin. destruct (Hgen u Hin) as [n [_ Hn]]. rewrite Hn. reflexivity.
Qed.

(** X1. A user who has just registered through POST /auth/register can
    log in through POST /auth/login with the same email and password: the
    answer carries the registered name and the token signed over the new
    row's id and username. *)
Theorem register_then_login_succeeds
        (compare_digest :
           forall salt p, bcrypt_compare p (bcrypt_digest salt p 10) = true)
        (w : World) (dto : RegisterDto) (r : RegisterResponse) :
  fst (controller_register dto w) = Ok r ->
  fst (controller_login
         {| cred_email := reg_email dto; cred_password := reg_password dto |}
         (snd (controller_register dto w))) =
    Ok {| login_message := "Login successful";
          login_name := reg_name dto;
          accessToken :=
            jwtService_sign {| sub := view_id (user r);
                               payload_username := reg_username dto |} |}.
Proof.
  unfold controller_register, controller_login. simpl. intros Hr.
  destruct (register_outcome (reg_email dto) (reg_name dto)
              (reg_username dto) (reg_password dto) w)
    as [[e [He _]] | [He Hn]]; [congruence|].
  rewrite (AuthFacts.register_fresh _ _ _ _ _ He Hn) in Hr |- *.
  simpl in Hr. injection Hr as <-.
  rewrite AuthFacts.login_run. simpl.
  rewrite find_snoc, He. simpl. rewrite String.eqb_refl. simpl.
  rewrite compare_digest. reflexivity.
Qed.

(** X2. Once register has succeeded, a second register with the same
    email is refused with the email Conflict whatever its other arguments,
    and a second register with the same username is refused with a
    Conflict whatever its email. *)
Theorem register_twice_conflicts (w : World)
        (email name username password : string) (r : RegisterResponse) :
  fst (register email name username password w) = Ok r ->
  (forall name2 username2 password2,
     fst (register email name2 username2 password2
            (snd (register email name username password w))) =
       Throw (ConflictException "User already exists with this email")) /\
  (forall email2 name2 password2,
     exists m,
       fst (register email2 name2 username password2
              (snd (register email name username password w))) =
         Throw (ConflictException m)).
Proof.
  intros Hr.
  destruct (register_outcome email name username password w)
    as [[e [He _]] | [He Hn]]; [congruence|].
  rewrite (AuthFacts.register_fresh _ _ _ _ _ He Hn). split.
  - intros name2 username2 password2.
    rewrite (AuthFacts.register_email_used _ _ _ _ _
               (new_row email name username password w)); [reflexivity|].
    simpl. rewrite find_snoc, He. simpl. rewrite String.eqb_refl. reflexivity.
  - intros email2 name2 password2.
    match goal with
    | |- context [register _ _ _ _ ?w1] => set (w' := w1)
    end.
    destruct (find (matches (WhereEmail email2)) (table w')) as [u|] eqn:He2.
    + rewrite (AuthFacts.register_email_used _ _ _ _ _ _ He2).
      eexists. reflexivity.
    + rewrite (AuthFacts.register_username_used _ _ _ _ _
                 (new_row email name username password w) He2).
      * eexists. reflexivity.
      * simpl. rewrite find_snoc, Hn. simpl. rewrite String.eqb_refl.
        reflexivity.
Qed.

(** X3. register, whether it succeeds or fails, does not change what
    login answers for any other email. *)
Theorem register_keeps_other_logins (w : World)
        (email name username password email' password' : string) :
  email' <> email ->
  fst (login email' password'
         (snd (register email name username password w))) =
  fst (login email' password' w).
Proof.
  intros Hne. rewrite !AuthFacts.login_run. simpl.
  destruct (register_outcome email name username password w)
    as [[e [_ [Ht _]]] | [He Hn]].
  - rewrite Ht. reflexivity.
  - rewrite (AuthFacts.register_fresh _ _ _ _ _ He Hn). simpl.
    rewrite find_snoc. simpl.
    assert (Hx : (email =? email') = false).
    { apply String.eqb_neq. congruence. }
    rewrite Hx.
    destruct (find (matches (WhereEmail email')) (table w)); reflexivity.
Qed.

(** X4. On a table whose rows have distinct ids, resetPassword, whether
    it succeeds or fails, does not change what login answers for any other
    email. *)
Theorem reset_keeps_other_logins (w : World)
        (email oldPassword : string) (newPassword : option string)
        (email' password' : string) :
  table_ok (table w) = true ->
  NoDup (map id (table w)) ->
  email' <> email ->
  fst (login email' password'
         (snd (resetPassword email oldPassword newPassword w))) =
  fst (login email' password' w).
Proof.
  intros Hok Hnd Hne. rewrite !AuthFacts.login_run. simpl.
  destruct (reset_outcome email oldPassword newPassword w Hok)
    as [[e [_ [Ht _]]] | [u [i [p [_ [Hf [Hi [_ [_ [Ht _]]]]]]]]]].
  - rewrite Ht. reflexivity.
  - rewrite Ht.
    pose proof (find_some _ _ Hf) as [Hin Hm]. simpl in Hm.
    apply String.eqb_eq in Hm.
    assert (Hu : (Auth.email u =? email') = false).
    { apply String.eqb_neq. congruence. }
    rewrite find_update_row_other; [reflexivity | | exact Hu].
    intros r Hr Hid. apply has_id_eq in Hid.
    assert (r = u) as ->.
    { apply (NoDup_map_eq id (table w)); try assumption. congruence. }
    exact Hu.
Qed.

(** X5. The keys of the users table stay unique under calls that run
    one after the other: if no two rows share an id, an email or a
    username and every id was generated by the store, the same holds after
    a register, login or resetPassword that ran to its end with no other
    call on the store in between, whatever its outcome (the store
    generating distinct ids). Two registrations that overlap, the second
    looking up before the first has saved, are not covered: nothing in
    register keeps them from storing the same email twice. *)
Theorem unique_keys_preserved
        (genId_inj : forall m n, genId m = genId n -> m = n)
        (op : Operation) (w : World) :
  unique_keys w -> unique_keys (snd (perform op w)).
Proof.
  intros Hu. pose proof (unique_keys_table_ok w Hu) as Hok.
  destruct op as [email name username password | email password
                 | email oldPassword newPassword]; simpl;
    rewrite AuthFacts.snd_failure.
  - destruct (register_outcome email name username password w)
      as [[e [_ [Ht He]]] | [He Hn]].
    + exact (unique_keys_same _ _ Ht He Hu).
    + rewrite (AuthFacts.register_fresh _ _ _ _ _ He Hn).
      destruct Hu as [Hid [Hem [Hun Hgen]]].
      unfold unique_keys. simpl. rewrite !map_app. simpl.
      split; [|split; [|split]].
      * apply NoDup_snoc; [exact Hid|]. intros Hin.
        apply in_map_iff in Hin. destruct Hin as [u [Hu Hin]].
        destruct (Hgen u Hin) as [n [Hlt Hn']]. rewrite Hn' in Hu.
        injection Hu as Hu. apply genId_inj in Hu. lia.
      * apply NoDup_snoc; [exact Hem|]. intros Hin.
        apply in_map_iff in Hin. destruct Hin as [u [Hu Hin]].
        pose proof (find_none_not_in _ _ u He Hin) as Hm. simpl in Hm.
        apply String.eqb_neq in Hm. contradiction.
      * apply NoDup_snoc; [exact Hun|]. intros Hin.
        apply in_map_iff in Hin. destruct Hin as [u [Hu Hin]].
        pose proof (find_none_not_in _ _ u Hn Hin) as Hm. simpl in Hm.
        apply String.eqb_neq in Hm. contradiction.
      * intros u Hin. apply in_app_or in Hin. destruct Hin as [Hin|[<-|[]]].
        -- destruct (Hgen u Hin) as [n [Hlt Hn']]. exists n. split; [lia|exact Hn'].
        -- exists (S (entropy w)). split; [lia|reflexivity].
  - rewrite AuthFacts.login_run. exact Hu.
  - destruct (reset_outcome email oldPassword newPassword w Hok)
      as [[e [_ [Ht He]]] | [u [i [p [_ [Hf [Hi [_ [_ [Ht He]]]]]]]]]].
    + exact (unique_keys_same _ _ Ht He Hu).
    + destruct Hu as [Hid [Hem [Hun Hgen]]].
      pose proof (find_some _ _ Hf) as [Hin _].
      assert (Hrow : forall r, In r (table w) -> has_id i r = true -> r = u).
      { intros r Hr Hri. apply has_id_eq in Hri.
        apply (NoDup_map_eq id (table w)); try assumption. congruence. }
      unfold unique_keys. rewrite Ht, He.
      rewrite !map_update_row.
      * split; [exact Hid|]. split; [exact Hem|]. split; [exact Hun|].
        intros u0 Hu0. unfold update_row in Hu0. apply in_map_iff in Hu0.
        destruct Hu0 as [r [Hr0 Hr]].
        destruct (has_id i r); subst u0.
        -- destruct (Hgen u Hin) as [n [Hlt Hn']]. exists n.
           split; [lia | exact Hn'].
        -- destruct (Hgen r Hr) as [n [Hlt Hn']]. exists n.
           split; [lia | exact Hn'].
      * intros r Hr Hri. rewrite (Hrow r Hr Hri). reflexivity.
      * intros r Hr Hri. rewrite (Hrow r Hr Hri). reflexivity.
      * intros r Hr Hri. rewrite (Hrow r Hr Hri). reflexivity.
Qed.

(** X6. login never writes: whatever it answers, the rows and the
    randomness are those from before and the store has received one lookup
    by email. *)
Theorem login_reads_only (w : World) (email password : string) :
  untouched w (snd (login email password w)) /\
  calls (snd (login email password w)) =
    (calls w ++ [CallFindOne (WhereEmail email)])%list.
Proof.
  rewrite AuthFacts.login_run. simpl. split; [|reflexivity].
  apply AuthFacts.untouched_log, AuthFacts.untouched_refl.
Qed.

(** X7. A password reset through POST /auth/reset-password changes the
    password and nothing else of the account: logging in afterwards with
    the new password succeeds with the very answer (same name, same token
    claims) that the old password gave before. *)
Theorem reset_keeps_identity
        (compare_digest :
           forall salt p, bcrypt_compare p (bcrypt_digest salt p 10) = true)
        (w : World) (dto : ResetPasswordDto) (r : ResetResponse) :
  table_ok (table w) = true ->
  fst (controller_resetPassword dto w) = Ok r ->
  (exists a,
     fst (controller_login
            {| cred_email := reset_email dto; cred_password := oldPassword dto |}
            w) = Ok a /\
     fst (controller_login
            {| cred_email := reset_email dto; cred_password := newPassword dto |}
            (snd (controller_resetPassword dto w))) = Ok a).
Proof.
  unfold controller_resetPassword, controller_login. simpl. intros Hok Hr.
  destruct (reset_outcome (reset_email dto) (oldPassword dto)
              (Some (newPassword dto)) w Hok)
    as [[e [He _]] | [u [i [p [Hp [Hf [Hi [Hc [_ [Ht _]]]]]]]]]]; [congruence|].
  injection Hp as <-.
  rewrite !AuthFacts.login_run. simpl. rewrite Ht, Hf, Hc.
  rewrite (AuthFacts.find_update_row _ i u); try assumption.
  - simpl. rewrite compare_digest. eexists. split; reflexivity.
  - simpl. apply find_some in Hf. destruct Hf as [_ Hm]. simpl in Hm.
    apply String.eqb_eq. exact Hm.
Qed.

(** X22. A successful resetPassword rewrites one thing: the row login
    finds under the email is the former row with its password replaced by
    bcrypt's digest, at cost 10, of the new password (so not the new
    password itself, a digest differing from its plaintext), and the store
    has received that one save and no create. *)
Theorem reset_stores_digest
        (digest_differs : forall salt p, bcrypt_digest salt p 10 <> p)
        (w : World) (email oldPassword p : string) (r : ResetResponse) :
  table_ok (table w) = true ->
  fst (resetPassword email oldPassword (Some p) w) = Ok r ->
  exists u,
    find (matches (WhereEmail email)) (table w) = Some u /\
    find (matches (WhereEmail email))
         (table (snd (resetPassword email oldPassword (Some p) w))) =
      Some (set_password u (bcrypt_digest (genSalt (entropy w)) p 10)) /\
    Auth.password (set_password u (bcrypt_digest (genSalt (entropy w)) p 10))
      <> p /\
    calls (snd (resetPassword email oldPassword (Some p) w)) =
      (calls w ++
       [CallFindOne (WhereEmail email);
        CallSave (set_password u (bcrypt_digest (genSalt (entropy w)) p 10))])%list.
Proof.
  intros Hok Hr.
  destruct (find (matches (WhereEmail email)) (table w)) as [u|] eqn:He.
  - destruct (bcrypt_compare oldPassword (Auth.password u)) eqn:Hc.
    + destruct (too_short (Some p)) eqn:Ht.
      * rewrite (AuthFacts.reset_too_short _ _ _ _ _ He Hc Ht) in Hr.
        discriminate.
      * destruct (AuthFacts.found_has_id _ _ _ Hok He) as [i Hi].
        exists u. split; [reflexivity|].
        rewrite (AuthFacts.reset_accepted _ _ _ _ _ He Hc Ht). simpl.
        rewrite Hi. split; [|split; [apply digest_differs | reflexivity]].
        apply (AuthFacts.find_update_row _ i u); try assumption.
        simpl. apply find_some in He. destruct He as [_ Hm]. simpl in Hm.
        apply String.eqb_eq. exact Hm.
    + rewrite (AuthFacts.reset_wrong_old _ _ _ _ _ He Hc) in Hr. discriminate.
  - rewrite (AuthFacts.reset_no_user _ _ _ _ He) in Hr. discriminate.
Qed.

(** X23. No operation removes a user or changes an id, an email or a
    username: on a table whose rows have distinct ids, after register,
    login or resetPassword the three columns are the former ones, followed
    by those of at most one new row. *)
Theorem keys_are_append_only (op : Operation) (w : World) :
  table_ok (table w) = true ->
  NoDup (map id (table w)) ->
  exists rows,
    List.length rows <= 1 /\
    map id (table (snd (perform op w))) =
      (map id (table w) ++ map id rows)%list /\
    map Auth.email (table (snd (perform op w))) =
      (map Auth.email (table w) ++ map Auth.email rows)%list /\
    map Auth.username (table (snd (perform op w))) =
      (map Auth.username (table w) ++ map Auth.username rows)%list.
Proof.
  intros Hok Hnd.
  assert (Hsame : forall w', table w' = table w ->
            exists rows,
              List.length rows <= 1 /\
              map id (table w') = (map id (table w) ++ map id rows)%list /\
              map Auth.email (table w') =
                (map Auth.email (table w) ++ map Auth.email rows)%list /\
              map Auth.username (table w') =
                (map Auth.username (table w) ++ map Auth.username rows)%list).
  { intros w' ->. exists []. simpl. rewrite !app_nil_r.
    repeat split. lia. }
  destruct op as [email name username password | email password
                 | email oldPassword newPassword]; simpl;
    rewrite AuthFacts.snd_failure.
  - destruct (register_outcome email name username password w)
      as [[e [_ [Ht _]]] | [He Hn]]; [apply Hsame; exact Ht|].
    rewrite (AuthFacts.register_fresh _ _ _ _ _ He Hn). simpl.
    exists [new_row email name username password w].
    rewrite !map_app. repeat split. simpl. lia.
  - apply Hsame. rewrite AuthFacts.login_run. reflexivity.
  - destruct (reset_outcome email oldPassword newPassword w Hok)
      as [[e [_ [Ht _]]] | [u [i [p [_ [Hf [Hi [_ [_ [Ht _]]]]]]]]]];
      [apply Hsame; exact Ht|].
    pose proof (find_some _ _ Hf) as [Hin _].
    assert (Hrow : forall r, In r (table w) -> has_id i r = true -> r = u).
    { intros r Hr Hri. apply has_id_eq in Hri.
      apply (NoDup_map_eq id (table w)); try assumption. congruence. }
    exists []. rewrite Ht. simpl. rewrite !app_nil_r.
    rewrite !map_update_row.
    + repeat split. lia.
    + intros r Hr Hri. rewrite (Hrow r Hr Hri). reflexivity.
    + intros r Hr Hri. rewrite (Hrow r Hr Hri). reflexivity.
    + intros r Hr Hri. rewrite (Hrow r Hr Hri). reflexivity.
Qed.

End Facts.

End AuthMore.

(** * The tasks store under create, read, update and delete *)

Module TasksMore.
Import Http Eff Tasks TasksCrud.

Section Facts.

Variable genId : list Task -> string.
Variable default_completed : bool.

Lemma found_id (i : string) (rows : list Task) (t : Task) :
  find (has_id i) rows = Some t -> In t rows /\ id t = i.
Proof.
  intros Hf. apply find_some in Hf. destruct Hf as [Hin Hi].
  split; [exact Hin|]. apply String.eqb_eq. exact Hi.
Qed.

Lemma find_exists (i : string) (rows : list Task) :
  existsb (has_id i) rows =
    match find (has_id i) rows with Some _ => true | None => false end.
Proof.
  induction rows as [|r rows IH]; simpl; [reflexivity|].
  destruct (has_id i r); simpl; [reflexivity | exact IH].
Qed.

Lemma find_updated (i : string) (t' : Task) (rows : list Task) :
  existsb (has_id i) rows = true -> id t' = i ->
  find (has_id i) (update_row i t' rows) = Some t'.
Proof.
  intros Hex Hi. induction rows as [|r rows IH]; simpl in *; [discriminate|].
  destruct (has_id i r) eqn:Hr; simpl in *.
  - unfold has_id at 1. rewrite Hi, String.eqb_refl. reflexivity.
  - rewrite Hr. apply IH. exact Hex.
Qed.

Lemma find_update_other (i i' : string) (t' : Task) (rows : list Task) :
  i' <> i -> id t' = i ->
  find (has_id i') (update_row i t' rows) = find (has_id i') rows.
Proof.
  intros Hne Hi. induction rows as [|r rows IH]; simpl; [reflexivity|].
  destruct (has_id i r) eqn:Hr.
  - assert (Ht : has_id i' t' = false).
    { unfold has_id. rewrite Hi. apply String.eqb_neq. congruence. }
    assert (Hr' : has_id i' r = false).
    { unfold has_id in *. apply String.eqb_eq in Hr. rewrite Hr.
      apply String.eqb_neq. congruence. }
    rewrite Ht, Hr'. exact IH.
  - destruct (has_id i' r); [reflexivity | exact IH].
Qed.

Lemma map_id_update_row (i : string) (t' : Task) (rows : list Task) :
  id t' = i -> map id (update_row i t' rows) = map id rows.
Proof.
  intros Hi. unfold update_row. rewrite map_map. apply map_ext.
  intros r. destruct (has_id i r) eqn:Hr; [|reflexivity].
  apply String.eqb_eq in Hr. congruence.
Qed.

Lemma find_filter_other (i i' : string) (rows : list Task) :
  i' <> i ->
  find (has_id i') (filter (fun t => negb (has_id i t)) rows) =
  find (has_id i') rows.
Proof.
  intros Hne. induction rows as [|r rows IH]; simpl; [reflexivity|].
  destruct (has_id i r) eqn:Hr; simpl.
  - assert (Hr' : has_id i' r = false).
    { unfold has_id in *. apply String.eqb_eq in Hr. rewrite Hr.
      apply String.eqb_neq. congruence. }
    rewrite Hr'. exact IH.
  - destruct (has_id i' r); [reflexivity | exact IH].
Qed.

Lemma find_filter_self (i : string) (rows : list Task) :
  find (has_id i) (filter (fun t => negb (has_id i t)) rows) = None.
Proof.
  induction rows as [|r rows IH]; simpl; [reflexivity|].
  destruct (has_id i r) eqn:Hr; simpl; [exact IH|].
  rewrite Hr. exact IH.
Qed.

Lemma filter_all_other (i : string) (rows : list Task) :
  ~ In i (map id rows) ->
  filter (fun t => negb (has_id i t)) rows = rows.
Proof.
  induction rows as [|r rows IH]; simpl; [reflexivity|].
  intros Hn. assert (Hr : has_id i r = false).
  { apply String.eqb_neq. intros Heq. apply Hn. left. exact Heq. }
  rewrite Hr. simpl. rewrite IH; [reflexivity|].
  intros Hin. apply Hn. right. exact Hin.
Qed.

Lemma find_fresh_none (i : string) (rows : list Task) :
  ~ In i (map id rows) -> find (has_id i) rows = None.
Proof.
  intros Hn. destruct (find (has_id i) rows) as [t|] eqn:Hf; [|reflexivity].
  apply found_id in Hf. destruct Hf as [Hin Hi].
  exfalso. apply Hn. rewrite <- Hi. apply in_map. exact Hin.
Qed.

Lemma find_task_snoc (i : string) (rows : list Task) (x : Task) :
  find (has_id i) (rows ++ [x]) =
    match find (has_id i) rows with
    | Some t => Some t
    | None => if has_id i x then Some x else None
    end.
Proof.
  induction rows as [|r rows IH]; simpl; [reflexivity|].
  destruct (has_id i r); [reflexivity | exact IH].
Qed.

Lemma NoDup_map_filter {A B} (f : A -> B) (g : A -> bool) (l : list A) :
  NoDup (map f l) -> NoDup (map f (filter g l)).
Proof.
  induction l as [|a l IH]; simpl; [trivial|].
  intros Hnd. inversion Hnd as [|? ? Ha Hnd']; subst.
  destruct (g a); simpl; [|apply IH; exact Hnd'].
  constructor; [|apply IH; exact Hnd'].
  intros Hin. apply Ha. apply in_map_iff in Hin.
  destruct Hin as [x [Hx Hin]]. apply filter_In in Hin.
  rewrite <- Hx. apply in_map. tauto.
Qed.

Lemma updateTask_run (i : string) (title description : option string)
      (completed : option bool) (w : World) :
  updateTask i title description completed w =
    match find (has_id i) (table w) with
    | None => (Ok None, w)
    | Some task =>
        (Ok (Some (merged task title description completed)),
         with_table w (update_row i (merged task title description completed)
                                  (table w)))
    end.
Proof.
  unfold updateTask, getTaskById, tasksRepo_findOne, bind, ret. simpl.
  destruct (find (has_id i) (table w)) as [task|] eqn:Hf; [|reflexivity].
  destruct (found_id _ _ _ Hf) as [Hin Hi]. subst i.
  unfold tasksRepo_save, merged. simpl.
  rewrite find_exists, Hf. reflexivity.
Qed.

(** X8. PUT /tasks/:id/update answers "No task was found with this id",
    and leaves the store as it was, when no stored task has the id; when
    one has, it answers the updated task: the stored id, the dto's
    completed flag, and for title and description the dto's value or, when
    the dto has none, the stored one. *)
Theorem controller_updateTask_unknown_id (i : string) (dto : updateTaskDto)
        (w : World) :
  (existsb (has_id i) (table w) = false ->
   controller_updateTask i dto w =
     (Ok (inr "No task was found with this id"), w)) /\
  (forall task,
     find (has_id i) (table w) = Some task ->
     fst (controller_updateTask i dto w) =
       Ok (inl {| id := i;
                  title := match dto_title dto with
                           | Some given => given
                           | None => title task
                           end;
                  description := match dto_description dto with
                                 | Some given => given
                                 | None => description task
                                 end;
                  completed := dto_completed dto |})).
Proof.
  unfold controller_updateTask, bind. rewrite updateTask_run, find_exists.
  destruct (find (has_id i) (table w)) as [task|] eqn:Hf.
  - split; [discriminate|]. intros task' Htask. injection Htask as <-.
    destruct (found_id _ _ _ Hf) as [_ Hi]. simpl. unfold merged.
    rewrite Hi. destruct (dto_title dto), (dto_description dto); reflexivity.
  - split; [reflexivity | discriminate].
Qed.

(** X9. After updateTask(id, ...) on a stored task, getTaskById(id)
    returns the task updateTask returned: the stored id, and for each of
    title, description and completed the value given, or the stored one
    when the argument is null or undefined. *)
Theorem updateTask_then_getTaskById (i : string)
        (title description : option string) (completed : option bool)
        (w : World) (task : Task) :
  find (has_id i) (table w) = Some task ->
  fst (updateTask i title description completed w) =
    Ok (Some (merged task title description completed)) /\
  fst (getTaskById i (snd (updateTask i title description completed w))) =
    Ok (Some (merged task title description completed)) /\
  id (merged task title description completed) = i.
Proof.
  intros Hf. rewrite updateTask_run, Hf. simpl.
  destruct (found_id _ _ _ Hf) as [Hin Hi].
  split; [reflexivity|]. split; [|exact Hi].
  rewrite find_updated; [reflexivity | | exact Hi].
  rewrite find_exists, Hf. reflexivity.
Qed.

(** X10. updateTask(id, ...) does not touch the other tasks:
    getTaskById answers as before for every other id, and the number of
    stored tasks is unchanged. *)
Theorem updateTask_keeps_other_tasks (i i' : string)
        (title description : option string) (completed : option bool)
        (w : World) :
  i' <> i ->
  fst (getTaskById i' (snd (updateTask i title description completed w))) =
    fst (getTaskById i' w) /\
  List.length (table (snd (updateTask i title description completed w))) =
    List.length (table w).
Proof.
  intros Hne. rewrite updateTask_run.
  destruct (find (has_id i) (table w)) as [task|] eqn:Hf; simpl.
  - destruct (found_id _ _ _ Hf) as [_ Hi]. split.
    + rewrite find_update_other; [reflexivity | exact Hne | exact Hi].
    + unfold update_row. apply length_map.
  - split; reflexivity.
Qed.

(** X11. On a store whose tasks have distinct ids, updateTask with title,
    description and completed all undefined changes no row. *)
Theorem updateTask_nothing_given (i : string) (w : World) :
  unique_ids w ->
  table (snd (updateTask i None None None w)) = table w.
Proof.
  intros Hnd. rewrite updateTask_run.
  destruct (find (has_id i) (table w)) as [task|] eqn:Hf; [|reflexivity].
  destruct (found_id _ _ _ Hf) as [Hin Hi]. simpl.
  unfold update_row. rewrite <- (map_id (table w)) at 2.
  apply map_ext_in. intros r Hr.
  destruct (has_id i r) eqn:Hri; [|reflexivity].
  apply String.eqb_eq in Hri.
  assert (r = task) as ->.
  { apply (AuthMore.NoDup_map_eq id (table w)); try assumption. congruence. }
  destruct task; reflexivity.
Qed.

(** X12. After deleteTask(id), getTaskById(id) returns null, getTaskById
    answers as before for every other id, and the stored tasks are exactly
    the former ones with another id. (For the empty id, which the store
    refuses to delete by, this holds when no stored task has the empty
    id.) *)
Theorem deleteTask_then_getTaskById (i : string) (w : World) :
  (i = "" -> ~ In "" (map id (table w))) ->
  fst (getTaskById i (snd (deleteTask i w))) = Ok None /\
  (forall i', i' <> i ->
     fst (getTaskById i' (snd (deleteTask i w))) = fst (getTaskById i' w)) /\
  (forall t, In t (table (snd (deleteTask i w))) <->
             In t (table w) /\ id t <> i).
Proof.
  intros Hempty. rewrite TasksFacts.deleteTask_run.
  unfold getTaskById, tasksRepo_findOne.
  destruct (i =? "") eqn:Hi; simpl.
  - apply String.eqb_eq in Hi. subst i. specialize (Hempty eq_refl).
    split; [|split].
    + rewrite (find_fresh_none _ _ Hempty). reflexivity.
    + reflexivity.
    + intros t. split; [|tauto]. intros Hin. split; [exact Hin|].
      intros Ht. apply Hempty. rewrite <- Ht. apply in_map. exact Hin.
  - split; [|split].
    + rewrite find_filter_self. reflexivity.
    + intros i' Hne. rewrite find_filter_other; [reflexivity | exact Hne].
    + intros t. rewrite filter_In. unfold has_id.
      rewrite negb_true_iff, String.eqb_neq. reflexivity.
Qed.

(** X13. Deleting the same non-empty id twice is deleting it once: the
    second deleteTask still answers the success message, removes nothing
    (0 rows affected) and leaves the rows of the first. *)
Theorem deleteTask_twice (i : string) (w : World) :
  i <> "" ->
  fst (deleteTask i (snd (deleteTask i w))) =
    Fulfilled "Task Deleted Successfully!" /\
  fst (tasksRepo_delete i (snd (deleteTask i w))) =
    Fulfilled {| affected := 0 |} /\
  table (snd (deleteTask i (snd (deleteTask i w)))) =
    table (snd (deleteTask i w)).
Proof.
  intros Hi. apply String.eqb_neq in Hi.
  unfold tasksRepo_delete. rewrite !TasksFacts.deleteTask_run, Hi. simpl.
  assert (Hnone : existsb (has_id i)
                    (filter (fun t => negb (has_id i t)) (table w)) = false).
  { rewrite find_exists, find_filter_self. reflexivity. }
  destruct (TasksFacts.filter_none _ _ Hnone) as [H0 Hsame].
  split; [reflexivity|]. split.
  - rewrite H0. reflexivity.
  - exact Hsame.
Qed.

(** X14. When the store generates an id no stored task has,
    TasksService.createTask(title, description) appends one row with that
    id and the given title and description and returns it:
    getTaskById of the new id returns it, getAllTasks returns the former
    tasks and it (one task more, whatever the order), and getTaskById
    answers as before for every other id. *)
Theorem createTask_then_read (title description : string) (w : World) :
  ~ In (genId (table w)) (map id (table w)) ->
  let created := {| id := genId (table w); Tasks.title := title;
                    Tasks.description := description;
                    completed := default_completed |} in
  let w' := snd (createTask genId default_completed title description w) in
  fst (createTask genId default_completed title description w) = Ok created /\
  fst (getTaskById (id created) w') = Ok (Some created) /\
  (exists all,
     fst (getAllTasks w') = Ok all /\
     List.length all = S (List.length (table w)) /\
     forall t, In t all <-> In t (table w) \/ t = created) /\
  (forall i', i' <> id created ->
     fst (getTaskById i' w') = fst (getTaskById i' w)).
Proof.
  intros Hfresh created w'.
  unfold w', createTask, tasksRepo_create, tasksRepo_insert,
    getTaskById, getAllTasks, tasksRepo_find, tasksRepo_findOne, bind, ret.
  simpl. fold created.
  split; [reflexivity|]. split; [|split].
  - rewrite find_task_snoc, (find_fresh_none _ _ Hfresh).
    unfold has_id. simpl. rewrite String.eqb_refl. reflexivity.
  - eexists. split; [reflexivity|]. split.
    + rewrite length_app. simpl. lia.
    + intros t. rewrite in_app_iff. simpl. intuition.
  - intros i' Hne. rewrite find_task_snoc.
    destruct (find (has_id i') (table w)); [reflexivity|].
    assert (Hx : has_id i' created = false).
    { unfold has_id. apply String.eqb_neq. intros Heq. apply Hne.
      symmetry. exact Heq. }
    rewrite Hx. reflexivity.
Qed.

(** X15. Creating a task and then deleting it by the id createTask
    returned gives back the rows from before, when the generated id was
    not in use (and is not the empty string, by which the store refuses to
    delete). *)
Theorem createTask_then_deleteTask (title description : string) (w : World) :
  ~ In (genId (table w)) (map id (table w)) ->
  genId (table w) <> "" ->
  table (snd (deleteTask (genId (table w))
                (snd (createTask genId default_completed title description w))))
  = table w.
Proof.
  intros Hfresh Hid. apply String.eqb_neq in Hid.
  rewrite TasksFacts.deleteTask_run, Hid.
  unfold createTask, tasksRepo_create, tasksRepo_insert, bind, ret. simpl.
  rewrite filter_app. simpl. unfold has_id at 2. simpl.
  rewrite String.eqb_refl. simpl.
  rewrite (filter_all_other _ _ Hfresh). apply app_nil_r.
Qed.

(** X16. Distinct ids are kept: on a store whose tasks have distinct ids,
    they are still distinct after updateTask and after deleteTask, and
    after createTask when the generated id was not in use. *)
Theorem unique_ids_preserved (w : World) :
  unique_ids w ->
  (forall i title description completed,
     unique_ids (snd (updateTask i title description completed w))) /\
  (forall i, unique_ids (snd (deleteTask i w))) /\
  (forall title description,
     ~ In (genId (table w)) (map id (table w)) ->
     unique_ids (snd (createTask genId default_completed title description w))).
Proof.
  unfold unique_ids. intros Hnd. split; [|split].
  - intros i title description completed. rewrite updateTask_run.
    destruct (find (has_id i) (table w)) as [task|] eqn:Hf; [|exact Hnd].
    simpl. rewrite map_id_update_row; [exact Hnd|].
    apply (found_id _ _ _ Hf).
  - intros i. rewrite TasksFacts.deleteTask_run.
    destruct (i =? ""); simpl; [exact Hnd|].
    apply NoDup_map_filter. exact Hnd.
  - intros title description Hfresh. simpl. rewrite map_app. simpl.
    apply AuthMore.NoDup_snoc; assumption.
Qed.

End Facts.

End TasksMore.

(** * What the upper-case pipe does to the values it accepts *)

Module PipesMore.
Import Http Pipes PipesProps.

Section Facts.

Variable toUpperCase : string -> string.

Lemma lookup_map (key : string) (props : list (string * JsValue)) :
  lookup key (map (fun kv => (fst kv, upper_entry toUpperCase (snd kv))) props) =
  upper_entry toUpperCase (lookup key props).
Proof.
  induction props as [|[k v] props IH]; simpl; [reflexivity|].
  destruct (k =? key); [reflexivity | exact IH].
Qed.

Lemma typeof_upper_entry (v : JsValue) :
  typeof (upper_entry toUpperCase v) = typeof v.
Proof. destruct v; reflexivity. Qed.

(** X17. On an object, transform keeps the keys and their order,
    upper-cases every property that holds a string and leaves every other
    property as it is: numbers, booleans, null, and nested objects and
    arrays, whose own strings are not upper-cased; a key the object lacks
    is still undefined. *)
Theorem transform_object_properties (props : list (string * JsValue)) :
  exists props',
    transform toUpperCase (JsObject props) = Ok (JsObject props') /\
    keys props' = keys props /\
    (forall key,
       lookup key props' =
         match lookup key props with
         | JsString s => JsString (toUpperCase s)
         | v => v
         end).
Proof.
  eexists. split; [reflexivity|]. split.
  - unfold keys. rewrite map_map. reflexivity.
  - intros key. rewrite lookup_map.
    destruct (lookup key props); reflexivity.
Qed.

(** X18. Whatever transform returns has the [typeof] of its input, and an
    array keeps its length: strings go to strings, objects to objects with
    as many properties, null to null. *)
Theorem transform_keeps_shape (v v' : JsValue) :
  transform toUpperCase v = Ok v' ->
  typeof v' = typeof v /\
  (forall elems, v = JsArray elems ->
     exists elems', v' = JsArray elems' /\
                    List.length elems' = List.length elems /\
                    forall n, typeof (nth n elems' JsUndefined) =
                              typeof (nth n elems JsUndefined)) /\
  (forall props, v = JsObject props ->
     exists props', v' = JsObject props' /\
                    List.length props' = List.length props).
Proof.
  rewrite PipesFacts.transform_by_typeof.
  destruct v; simpl; try discriminate; intros Hv; injection Hv as <-;
    (split; [reflexivity|]); split; try discriminate.
  - intros props' Hp. injection Hp as <-. eexists. split; [reflexivity|].
    apply length_map.
  - intros elems' He. injection He as <-. eexists. split; [reflexivity|].
    split; [apply length_map|].
    intros n.
    change JsUndefined with (upper_entry toUpperCase JsUndefined) at 1.
    rewrite map_nth. apply typeof_upper_entry.
Qed.

(** X19. With an upper-casing that is idempotent (as
    String.prototype.toUpperCase is), piping a value twice is piping it
    once: transform accepts what it returned and returns it unchanged. *)
Theorem transform_idempotent
        (upper_idem : forall s, toUpperCase (toUpperCase s) = toUpperCase s)
        (v v' : JsValue) :
  transform toUpperCase v = Ok v' ->
  transform toUpperCase v' = Ok v'.
Proof.
  assert (Hentry : forall x, upper_entry toUpperCase (upper_entry toUpperCase x)
                             = upper_entry toUpperCase x).
  { intros x. destruct x; simpl; try reflexivity.
    unfold upper_entry. simpl. rewrite upper_idem. reflexivity. }
  rewrite !PipesFacts.transform_by_typeof.
  destruct v; simpl; try discriminate; intros Hv; injection Hv as <-; simpl.
  - reflexivity.
  - rewrite upper_idem. reflexivity.
  - rewrite map_map. simpl. do 2 f_equal. apply map_ext.
    intros [k x]. simpl. rewrite Hentry. reflexivity.
  - rewrite map_map. do 2 f_equal. apply map_ext. exact Hentry.
Qed.

End Facts.

End PipesMore.

(** * The middleware and the interceptor on their own *)

Module GuardMore.
Import Http Eff Guard.

Section Facts.

Variable Response : Type.
Variable handler : Request -> Result Response.

(** X20. AuthLoggingInterceptor.intercept never changes the outcome: the
    result is that of the handler it wraps, run after the request line is
    logged; the "Response sent" line is logged after a handler that
    returned, and not after one that threw. *)
Theorem interceptor_is_transparent {A} (req : Request)
        (next : M (list Event) A) (tr : list Event) :
  let request_line :=
    ConsoleLog ("[Auth Log] User: " ++ username_or req "Anonymus"
                ++ " | Method: " ++ method req ++ " | URL: " ++ url req) in
  let response_line :=
    ConsoleLog ("[Auth Log] Response sent for " ++ method req ++ " "
                ++ url req ++ " by " ++ username_or req "Anonymous") in
  let inner := next (tr ++ [request_line])%list in
  fst (AuthLoggingInterceptor_intercept req next tr) = fst inner /\
  snd (AuthLoggingInterceptor_intercept req next tr) =
    match fst inner with
    | Ok _ => (snd inner ++ [response_line])%list
    | Throw _ => snd inner
    end.
Proof.
  intros request_line response_line inner.
  unfold AuthLoggingInterceptor_intercept, bind, console_log, ret.
  fold request_line. fold inner.
  destruct inner as [[a|e] tr']; simpl; split; reflexivity.
Qed.

(** X21. AuthMiddleware.use authenticates nothing: for every request,
    with or without an Authorization header, it logs the body and hands
    the request to what follows, so a handler placed behind it alone runs
    and its result is the route's. *)
Theorem middleware_rejects_nothing (req : Request) (tr : list Event) :
  fst (AuthMiddleware_use req (invoke_handler Response handler req) tr) =
    handler req /\
  snd (AuthMiddleware_use req (invoke_handler Response handler req) tr) =
    (tr ++ [ConsoleLog ("[Middlware] From Body: " ++ body req);
            TaskHandler req])%list /\
  (forall {A} (next : M (list Event) A),
     AuthMiddleware_use req next tr =
     next (tr ++ [ConsoleLog ("[Middlware] From Body: " ++ body req)])%list).
Proof.
  unfold AuthMiddleware_use, invoke_handler, bind, console_log. simpl.
  rewrite <- app_assoc. repeat split.
Qed.

End Facts.

End GuardMore.

(** * The further properties on sample stores *)

Module MoreWitness.
Import Http Eff.

Lemma tally_length (n : nat) : String.length (MockIds.tally n) = n.
Proof. induction n as [|n IH]; simpl; [reflexivity | now rewrite IH]. Qed.

Lemma tally_inj (m n : nat) : MockIds.tally m = MockIds.tally n -> m = n.
Proof.
  intros Heq. apply (f_equal String.length) in Heq.
  now rewrite !tally_length in Heq.
Qed.

Lemma upper_ascii_idem (c : ascii) :
  Mock.upper_ascii (Mock.upper_ascii c) = Mock.upper_ascii c.
Proof. destruct c as [[] [] [] [] [] [] [] []]; reflexivity. Qed.

Lemma upper_idem (s : string) : Mock.upper (Mock.upper s) = Mock.upper s.
Proof.
  induction s as [|c s IH]; simpl; [reflexivity|].
  now rewrite upper_ascii_idem, IH.
Qed.

Lemma register_then_login_succeeds_witness :
  fst (@AuthApi.controller_login Mock.collaborators
         {| AuthApi.cred_email := "b@x.com"; AuthApi.cred_password := "12345" |}
         (snd (@AuthApi.controller_register Mock.collaborators
                 {| AuthApi.reg_name := "B"; AuthApi.reg_username := "b1";
                    AuthApi.reg_email := "b@x.com";
                    AuthApi.reg_password := "12345" |} Mock.one_user))) =
    Ok {| Auth.login_message := "Login successful"; Auth.login_name := "B";
          Auth.accessToken := "mockAccessToken" |}.
Proof.
  apply (@AuthMore.register_then_login_succeeds Mock.collaborators
           MockFacts.mock_compare_digest Mock.one_user
           {| AuthApi.reg_name := "B"; AuthApi.reg_username := "b1";
              AuthApi.reg_email := "b@x.com"; AuthApi.reg_password := "12345" |}
           {| Auth.register_message := "User created successfully!";
              Auth.user := {| Auth.view_id := Some "id-1";
                              Auth.view_username := "b1";
                              Auth.view_name := "B";
                              Auth.view_email := "b@x.com" |} |}).
  reflexivity.
Defined.

Lemma register_twice_conflicts_witness :
  fst (@Auth.register Mock.collaborators "b@x.com" "C" "c1" "other"
         (snd (@Auth.register Mock.collaborators "b@x.com" "B" "b1" "12345"
                 Mock.one_user))) =
    Throw (ConflictException "User already exists with this email") /\
  exists m,
    fst (@Auth.register Mock.collaborators "c@x.com" "C" "b1" "other"
           (snd (@Auth.register Mock.collaborators "b@x.com" "B" "b1" "12345"
                   Mock.one_user))) =
      Throw (ConflictException m).
Proof.
  destruct (@AuthMore.register_twice_conflicts Mock.collaborators Mock.one_user
              "b@x.com" "B" "b1" "12345"
              {| Auth.register_message := "User created successfully!";
                 Auth.user := {| Auth.view_id := Some "id-1";
                                 Auth.view_username := "b1";
                                 Auth.view_name := "B";
                                 Auth.view_email := "b@x.com" |} |}
              eq_refl) as [Hemail Hname].
  split; [apply Hemail | apply Hname].
Defined.

Lemma register_keeps_other_logins_witness :
  fst (@Auth.login Mock.collaborators "a@x.com" "secret1"
         (snd (@Auth.register Mock.collaborators "b@x.com" "B" "b1" "12345"
                 Mock.one_user))) =
  fst (@Auth.login Mock.collaborators "a@x.com" "secret1" Mock.one_user).
Proof.
  apply (@AuthMore.register_keeps_other_logins Mock.collaborators).
  discriminate.
Defined.

Lemma reset_keeps_other_logins_witness :
  fst (@Auth.login Mock.collaborators "a@x.com" "secret1"
         (snd (@Auth.resetPassword Mock.collaborators "b@x.com" "12345"
                 (Some "123456")
                 (snd (@Auth.register Mock.collaborators "b@x.com" "B" "b1"
                         "12345" Mock.one_user))))) =
  fst (@Auth.login Mock.collaborators "a@x.com" "secret1"
         (snd (@Auth.register Mock.collaborators "b@x.com" "B" "b1"
                 "12345" Mock.one_user))).
Proof.
  apply (@AuthMore.reset_keeps_other_logins Mock.collaborators).
  - reflexivity.
  - simpl. repeat constructor; simpl; intuition discriminate.
  - discriminate.
Defined.

Lemma two_users_unique : @AuthApi.unique_keys MockIds.tallying MockIds.two_users.
Proof.
  unfold AuthApi.unique_keys. simpl.
  split; [|split; [|split]].
  - repeat constructor; simpl; intuition discriminate.
  - repeat constructor; simpl; intuition discriminate.
  - repeat constructor; simpl; intuition discriminate.
  - intros u [<-|[<-|[]]].
    + exists 1. split; [lia | reflexivity].
    + exists 3. split; [lia | reflexivity].
Qed.

Lemma unique_keys_preserved_witness :
  @AuthApi.unique_keys MockIds.tallying
    (snd (@Auth.perform MockIds.tallying
            (Auth.Register "c@x.com" "C" "c1" "secret3") MockIds.two_users)) /\
  @AuthApi.unique_keys MockIds.tallying
    (snd (@Auth.perform MockIds.tallying
            (Auth.Register "a@x.com" "C" "c1" "secret3") MockIds.two_users)) /\
  @AuthApi.unique_keys MockIds.tallying
    (snd (@Auth.perform MockIds.tallying
            (Auth.ResetPassword "b@x.com" "secret2" (Some "123456"))
            MockIds.two_users)).
Proof.
  split; [|split];
    apply (@AuthMore.unique_keys_preserved MockIds.tallying tally_inj);
    exact two_users_unique.
Defined.

Lemma reset_keeps_identity_witness :
  exists a,
    fst (@AuthApi.controller_login Mock.collaborators
           {| AuthApi.cred_email := "a@x.com";
              AuthApi.cred_password := "secret1" |} Mock.one_user) = Ok a /\
    fst (@AuthApi.controller_login Mock.collaborators
           {| AuthApi.cred_email := "a@x.com";
              AuthApi.cred_password := "123456" |}
           (snd (@AuthApi.controller_resetPassword Mock.collaborators
                   {| AuthApi.reset_email := "a@x.com";
                      AuthApi.oldPassword := "secret1";
                      AuthApi.newPassword := "123456" |} Mock.one_user))) = Ok a.
Proof.
  apply (@AuthMore.reset_keeps_identity Mock.collaborators
           MockFacts.mock_compare_digest Mock.one_user
           {| AuthApi.reset_email := "a@x.com"; AuthApi.oldPassword := "secret1";
              AuthApi.newPassword := "123456" |}
           {| Auth.reset_message := "Password changed successfully!" |});
    reflexivity.
Defined.

Lemma controller_updateTask_unknown_id_witness :
  TasksCrud.controller_updateTask "non-existent-id"
    {| TasksCrud.dto_title := Some "Updated"; TasksCrud.dto_description := None;
       TasksCrud.dto_completed := true |} MockTasks.two_tasks =
    (Ok (inr "No task was found with this id"), MockTasks.two_tasks) /\
  fst (TasksCrud.controller_updateTask "123e4567"
         {| TasksCrud.dto_title := Some "Updated";
            TasksCrud.dto_description := None;
            TasksCrud.dto_completed := true |} MockTasks.two_tasks) =
    Ok (inl {| Tasks.id := "123e4567"; Tasks.title := "Updated";
               Tasks.description := "Test Description";
               Tasks.completed := true |}).
Proof.
  split.
  - destruct (TasksMore.controller_updateTask_unknown_id "non-existent-id"
                {| TasksCrud.dto_title := Some "Updated";
                   TasksCrud.dto_description := None;
                   TasksCrud.dto_completed := true |} MockTasks.two_tasks)
      as [Hnone _].
    apply Hnone. reflexivity.
  - destruct (TasksMore.controller_updateTask_unknown_id "123e4567"
                {| TasksCrud.dto_title := Some "Updated";
                   TasksCrud.dto_description := None;
                   TasksCrud.dto_completed := true |} MockTasks.two_tasks)
      as [_ Hfound].
    apply (Hfound MockTasks.first_task). reflexivity.
Defined.

Lemma updateTask_then_getTaskById_witness :
  fst (TasksCrud.getTaskById "123e4567"
         (snd (TasksCrud.updateTask "123e4567" None None (Some true)
                 MockTasks.two_tasks))) =
    Ok (Some {| Tasks.id := "123e4567"; Tasks.title := "Test Task";
                Tasks.description := "Test Description";
                Tasks.completed := true |}).
Proof.
  destruct (TasksMore.updateTask_then_getTaskById "123e4567" None None
              (Some true) MockTasks.two_tasks MockTasks.first_task eq_refl)
    as [_ [Hget _]].
  exact Hget.
Defined.

Lemma updateTask_keeps_other_tasks_witness :
  fst (TasksCrud.getTaskById "223e4567"
         (snd (TasksCrud.updateTask "123e4567" (Some "Updated") None None
                 MockTasks.two_tasks))) =
    Ok (Some MockTasks.second_task).
Proof.
  destruct (TasksMore.updateTask_keeps_other_tasks "123e4567" "223e4567"
              (Some "Updated") None None MockTasks.two_tasks)
    as [Hget _]; [discriminate|].
  rewrite Hget. reflexivity.
Defined.

Lemma two_tasks_unique : TasksCrud.unique_ids MockTasks.two_tasks.
Proof.
  unfold TasksCrud.unique_ids. simpl.
  repeat constructor; simpl; intuition discriminate.
Qed.

Lemma next_id_fresh :
  ~ In (MockTasks.next_id (Tasks.table MockTasks.two_tasks))
       (map Tasks.id (Tasks.table MockTasks.two_tasks)).
Proof. simpl. intuition discriminate. Qed.

Lemma updateTask_nothing_given_witness :
  Tasks.table (snd (TasksCrud.updateTask "123e4567" None None None
                      MockTasks.two_tasks)) =
    [MockTasks.first_task; MockTasks.second_task].
Proof.
  apply (TasksMore.updateTask_nothing_given "123e4567" MockTasks.two_tasks).
  exact two_tasks_unique.
Defined.

Lemma createTask_then_read_witness :
  fst (TasksCrud.getTaskById "row-2"
         (snd (TasksCrud.createTask MockTasks.next_id false "New Task"
                 "New Task Description" MockTasks.two_tasks))) =
    Ok (Some {| Tasks.id := "row-2"; Tasks.title := "New Task";
                Tasks.description := "New Task Description";
                Tasks.completed := false |}).
Proof.
  destruct (TasksMore.createTask_then_read MockTasks.next_id false "New Task"
              "New Task Description" MockTasks.two_tasks next_id_fresh)
    as [_ [Hget _]].
  exact Hget.
Defined.

Lemma createTask_then_deleteTask_witness :
  Tasks.table
    (snd (Tasks.deleteTask "row-2"
            (snd (TasksCrud.createTask MockTasks.next_id false "New Task"
                    "New Task Description" MockTasks.two_tasks)))) =
    [MockTasks.first_task; MockTasks.second_task].
Proof.
  apply (TasksMore.createTask_then_deleteTask MockTasks.next_id false
           "New Task" "New Task Description" MockTasks.two_tasks).
  - exact next_id_fresh.
  - discriminate.
Defined.

Lemma deleteTask_then_getTaskById_witness :
  fst (TasksCrud.getTaskById "123e4567"
         (snd (Tasks.deleteTask "123e4567" MockTasks.two_tasks))) = Ok None /\
  fst (TasksCrud.getTaskById "223e4567"
         (snd (Tasks.deleteTask "123e4567" MockTasks.two_tasks))) =
    Ok (Some MockTasks.second_task).
Proof.
  destruct (TasksMore.deleteTask_then_getTaskById "123e4567"
              MockTasks.two_tasks) as [Hgone [Hothers _]].
  - discriminate.
  - split; [exact Hgone|].
    rewrite (Hothers "223e4567"); [reflexivity | discriminate].
Defined.

Lemma deleteTask_twice_witness :
  fst (Tasks.deleteTask "123e4567"
         (snd (Tasks.deleteTask "123e4567" MockTasks.two_tasks))) =
    Tasks.Fulfilled "Task Deleted Successfully!" /\
  Tasks.table (snd (Tasks.deleteTask "123e4567"
                      (snd (Tasks.deleteTask "123e4567" MockTasks.two_tasks)))) =
    [MockTasks.second_task].
Proof.
  destruct (TasksMore.deleteTask_twice "123e4567" MockTasks.two_tasks)
    as [Hmsg [_ Hrows]]; [discriminate|].
  split; [exact Hmsg | rewrite Hrows; reflexivity].
Defined.

Lemma unique_ids_preserved_witness :
  TasksCrud.unique_ids (snd (Tasks.deleteTask "123e4567" MockTasks.two_tasks)) /\
  TasksCrud.unique_ids
    (snd (TasksCrud.createTask MockTasks.next_id false "New Task"
            "New Task Description" MockTasks.two_tasks)).
Proof.
  destruct (TasksMore.unique_ids_preserved MockTasks.next_id false
              MockTasks.two_tasks two_tasks_unique) as [_ [Hdel Hnew]].
  split; [apply Hdel | apply Hnew; exact next_id_fresh].
Defined.

Lemma transform_keeps_shape_witness :
  Pipes.typeof (Pipes.JsString "WRITE DOCS") =
  Pipes.typeof (Pipes.JsString "write docs").
Proof.
  apply (PipesMore.transform_keeps_shape Mock.upper
           (Pipes.JsString "write docs") (Pipes.JsString "WRITE DOCS")).
  reflexivity.
Defined.

Lemma transform_idempotent_witness :
  Pipes.transform Mock.upper
    (Pipes.JsObject [("title", Pipes.JsString "WRITE DOCS")]) =
  Ok (Pipes.JsObject [("title", Pipes.JsString "WRITE DOCS")]).
Proof.
  apply (PipesMore.transform_idempotent Mock.upper upper_idem
           (Pipes.JsObject [("title", Pipes.JsString "write docs")])).
  reflexivity.
Defined.

Lemma reset_stores_digest_witness :
  find (Auth.matches (Auth.WhereEmail "a@x.com"))
       (Auth.table (snd (@Auth.resetPassword Mock.collaborators "a@x.com"
                           "secret1" (Some "123456") Mock.one_user))) =
    Some {| Auth.id := Some "id-0"; Auth.username := "a1"; Auth.name := "A";
            Auth.email := "a@x.com"; Auth.password := "123456$a" |}.
Proof.
  destruct (@AuthMore.reset_stores_digest Mock.collaborators
              MockFacts.mock_digest_differs Mock.one_user
              "a@x.com" "secret1" "123456"
              {| Auth.reset_message := "Password changed successfully!" |}
              eq_refl eq_refl) as [u [Hu [Hfound _]]].
  injection Hu as <-. exact Hfound.
Defined.

Lemma keys_are_append_only_witness :
  exists rows,
    List.length rows <= 1 /\
    map Auth.email
        (Auth.table (snd (@Auth.perform Mock.collaborators
                            (Auth.Register "b@x.com" "B" "b1" "12345")
                            Mock.one_user))) =
      ("a@x.com" :: map Auth.email rows).
Proof.
  destruct (@AuthMore.keys_are_append_only Mock.collaborators
              (Auth.Register "b@x.com" "B" "b1" "12345") Mock.one_user)
    as [rows [Hlen [_ [Hemail _]]]].
  - reflexivity.
  - simpl. repeat constructor. simpl. intuition.
  - exists rows. split; [exact Hlen | exact Hemail].
Defined.

End MoreWitness.
